(** * Position tracker and indicator calculator: a shallow embedding

    The development follows the two classes of the trading core:
    [IndicatorCalculator] (pure functions over arrays of numbers) and
    [PositionTracker] (a ledger of open and closed positions with a
    persisted snapshot and an activity feed).

    Numbers.  A JavaScript [number] is modelled by [JS.num]: a rational
    for every finite value, plus [+Infinity], [-Infinity] and [NaN].
    Arithmetic on finite values is exact (no rounding, no overflow) and
    zero is unsigned; the special values follow IEEE 754 as JavaScript
    exposes it: [x/0] is an infinity for [x <> 0], [0/0] is [NaN], every
    comparison with [NaN] is false, [Math.min] and [Math.max] propagate
    [NaN].  An array read out of range yields [undefined], which every
    arithmetic operation and comparison of the code turns into [NaN].
    Rounding and overflow of doubles are not modelled, and the statements
    do not rest on their absence: they speak of comparisons, signs, [NaN]
    and the infinities, and where a property needs a computed value to be
    finite, that is a hypothesis on the value and not a consequence of
    finite inputs.

    Time.  [Date.now()] is an input of each operation (an integer number
    of milliseconds).

    Exceptions.  [Array.prototype.reduce] without an initial value throws
    a [TypeError] on an empty array; functions that call it return a
    [result].

    Window lengths ([period], [fast], [slow], [signal]) are natural
    numbers.  Calls of the logger have no effect on the tracker and are
    left out; so are the methods that only format text ([logPerformance],
    [exportToCSV], [getPositionHealth]).

    Of [BinanceClient] the development covers the retry loop [withRetry]
    and the symbol names of [mapSymbol].  The retry loop runs against a
    clock (the successive readings of [Date.now()]) and against what each
    call of the request function settles to, and records what it does in
    a trace; strings are strings of ASCII characters. *)

From Stdlib Require Import ZArith QArith Qabs Qround Lqa Lia Bool List Ascii.
From stdpp Require Import base strings gmap list fin_maps.
Import ListNotations.

(* ------------------------------------------------------------------ *)
(** ** JavaScript numbers *)

Module JS.

Inductive num : Type :=
| Fin (q : Q)
| PInf
| NInf
| NaN.

Definition Qltb (a b : Q) : bool := negb (Qle_bool b a).

Definition inf_of (positive : bool) : num := if positive then PInf else NInf.

Definition isNaN (x : num) : bool :=
  match x with NaN => true | _ => false end.

Definition isFinite (x : num) : bool :=
  match x with Fin _ => true | _ => false end.

Definition neg (x : num) : num :=
  match x with
  | Fin q => Fin (- q)
  | PInf => NInf
  | NInf => PInf
  | NaN => NaN
  end.

Definition add (x y : num) : num :=
  match x, y with
  | NaN, _ | _, NaN => NaN
  | Fin a, Fin b => Fin (a + b)
  | PInf, NInf | NInf, PInf => NaN
  | PInf, _ | _, PInf => PInf
  | NInf, _ | _, NInf => NInf
  end.

Definition sub (x y : num) : num := add x (neg y).

Definition mul (x y : num) : num :=
  match x, y with
  | NaN, _ | _, NaN => NaN
  | Fin a, Fin b => Fin (a * b)
  | Fin a, PInf | PInf, Fin a =>
      if Qeq_bool a 0 then NaN else inf_of (Qltb 0 a)
  | Fin a, NInf | NInf, Fin a =>
      if Qeq_bool a 0 then NaN else inf_of (Qltb a 0)
  | PInf, PInf | NInf, NInf => PInf
  | PInf, NInf | NInf, PInf => NInf
  end.

Definition div (x y : num) : num :=
  match x, y with
  | NaN, _ | _, NaN => NaN
  | Fin a, Fin b =>
      if Qeq_bool b 0
      then (if Qeq_bool a 0 then NaN else inf_of (Qltb 0 a))
      else Fin (a / b)
  | Fin _, (PInf | NInf) => Fin 0
  | PInf, Fin b => inf_of (Qle_bool 0 b)
  | NInf, Fin b => inf_of (Qltb b 0)
  | (PInf | NInf), (PInf | NInf) => NaN
  end.

(** [Math.abs] *)
Definition abs (x : num) : num :=
  match x with
  | Fin q => Fin (Qabs q)
  | PInf | NInf => PInf
  | NaN => NaN
  end.

(** [x < y] *)
Definition ltb (x y : num) : bool :=
  match x, y with
  | NaN, _ | _, NaN => false
  | Fin a, Fin b => Qltb a b
  | _, NInf => false
  | NInf, _ => true
  | PInf, _ => false
  | _, PInf => true
  end.

(** [x <= y] *)
Definition leb (x y : num) : bool :=
  match x, y with
  | NaN, _ | _, NaN => false
  | Fin a, Fin b => Qle_bool a b
  | NInf, _ => true
  | _, PInf => true
  | _, NInf => false
  | PInf, _ => false
  end.

(** [x > y] and [x >= y] *)
Definition gtb (x y : num) : bool := ltb y x.
Definition geb (x y : num) : bool := leb y x.

(** [x === y] on numbers *)
Definition eqb (x y : num) : bool :=
  match x, y with
  | Fin a, Fin b => Qeq_bool a b
  | PInf, PInf | NInf, NInf => true
  | _, _ => false
  end.

(** [x !== y] *)
Definition neqb (x y : num) : bool := negb (eqb x y).

(** [Math.max(x, y)] and [Math.min(x, y)] *)
Definition max (x y : num) : num :=
  if isNaN x || isNaN y then NaN else if ltb x y then y else x.

Definition min (x y : num) : num :=
  if isNaN x || isNaN y then NaN else if ltb y x then y else x.

(** [x || 0]: a falsy number ([0] or [NaN]) gives [0]. *)
Definition or_zero (x : num) : num :=
  if isNaN x || eqb x (Fin 0) then Fin 0 else x.

(** An integer (a length, a count, a time stamp) as a number. *)
Definition of_Z (z : Z) : num := Fin (inject_Z z).
Definition of_nat (n : nat) : num := of_Z (Z.of_nat n).

(** [a[i]] in a numeric context: [undefined] out of range acts as [NaN]. *)
Definition get (a : list num) (i : nat) : num := nth i a NaN.

(** [a.reduce((x, y) => x + y, 0)] *)
Definition sum (a : list num) : num := fold_left add a (Fin 0).

(** [parseFloat(x.toFixed(d))]: [x] rounded to [d] decimals, a tie away from
    zero; [NaN] and the infinities print and parse back unchanged. *)
Definition round_half_away (q : Q) : Z :=
  if Qle_bool 0 q then Qfloor (q + (1 # 2)) else (- Qfloor (- q + (1 # 2)))%Z.

Definition toFixed (d : nat) (x : num) : num :=
  match x with
  | Fin q =>
      let scale := inject_Z (10 ^ Z.of_nat d) in
      Fin (inject_Z (round_half_away (q * scale)) / scale)
  | _ => x
  end.

(** The same value: the equivalence that [===] decides apart from [NaN]. *)
Definition same (x y : num) : Prop :=
  match x, y with
  | Fin a, Fin b => a == b
  | PInf, PInf | NInf, NInf | NaN, NaN => True
  | _, _ => False
  end.

End JS.

Declare Scope js_scope.
Delimit Scope js_scope with js.
Bind Scope js_scope with JS.num.
Notation "x + y" := (JS.add x y) : js_scope.
Notation "x - y" := (JS.sub x y) : js_scope.
Notation "x * y" := (JS.mul x y) : js_scope.
Notation "x / y" := (JS.div x y) : js_scope.
Notation "x <? y" := (JS.ltb x y) : js_scope.
Notation "x <=? y" := (JS.leb x y) : js_scope.
Notation "x >? y" := (JS.gtb x y) : js_scope.
Notation "x >=? y" := (JS.geb x y) : js_scope.
Notation "x === y" := (JS.eqb x y) (at level 70, no associativity) : js_scope.
Notation "x !== y" := (JS.neqb x y) (at level 70, no associativity) : js_scope.
Abbreviation Fin := JS.Fin.

Open Scope js_scope.

(* ------------------------------------------------------------------ *)
(** ** Exceptions *)

Inductive error : Type := TypeError.

Inductive result (A : Type) : Type :=
| Ok (a : A)
| Throw (e : error).
Arguments Ok {A} a.
Arguments Throw {A} e.

Definition bind {A B : Type} (r : result A) (k : A -> result B) : result B :=
  match r with
  | Ok a => k a
  | Throw e => Throw e
  end.

Notation "'do' x <- r ; k" := (bind r (fun x => k))
  (at level 10, x name, r at level 100, k at level 200).

(** [a.reduce((x, y) => x + y)]: no initial value, so an empty array throws. *)
Definition reduce1 (a : list JS.num) : result JS.num :=
  match a with
  | [] => Throw TypeError
  | x :: r => Ok (fold_left JS.add r x)
  end.

(** [a.slice(-n)]: the last [n] elements, all of them when [n] exceeds the
    length; [-0] is [0], so [a.slice(-0)] is the whole array. *)
Definition slice_last {A : Type} (n : nat) (a : list A) : list A :=
  if Nat.eqb n 0 then a else skipn (length a - n) a.

(** [Math.max(...a)] and [Math.min(...a)] *)
Definition max_list (a : list JS.num) : JS.num := fold_left JS.max a JS.NInf.
Definition min_list (a : list JS.num) : JS.num := fold_left JS.min a JS.PInf.

(* ------------------------------------------------------------------ *)
(** ** IndicatorCalculator *)

Module IndicatorCalculator.

Record Candle : Type := mkCandle {
  timestamp : JS.num;
  open : JS.num;
  high : JS.num;
  low : JS.num;
  close : JS.num;
  volume : JS.num
}.

Record Macd : Type := mkMacd {
  line : JS.num;
  signal : JS.num;
  histogram : JS.num
}.

Record Indicators : Type := mkIndicators {
  rsi : JS.num;
  macd : Macd;
  adx : JS.num;
  volumeRatio : JS.num;
  momentum1h : JS.num;
  momentum4h : JS.num;
  recentHigh : JS.num;
  recentLow : JS.num;
  ema200 : JS.num
}.

(** The [deltas] array of [calculateRSI]. *)
Definition rsi_deltas (closes : list JS.num) : list JS.num :=
  map (fun i => JS.get closes i - JS.get closes (i - 1))
      (seq 1 (length closes - 1)).

(** The first loop of [calculateRSI]: [gains] and [losses] over the first
    [period] deltas. *)
Definition rsi_seed (deltas : list JS.num) (period : nat) : JS.num * JS.num :=
  fold_left
    (fun (acc : JS.num * JS.num) i =>
       let '(gains, losses) := acc in
       let delta := JS.get deltas i in
       if delta >? Fin 0 then (gains + delta, losses)
       else (gains, losses + JS.abs delta))
    (seq 0 period) (Fin 0, Fin 0).

(** One round of the second loop of [calculateRSI]. *)
Definition rsi_smooth (deltas : list JS.num) (period : nat)
    (acc : JS.num * JS.num) (i : nat) : JS.num * JS.num :=
  let '(avgGain, avgLoss) := acc in
  let delta := JS.get deltas i in
  let gain := if delta >? Fin 0 then delta else Fin 0 in
  let loss := if delta <? Fin 0 then JS.abs delta else Fin 0 in
  ((avgGain * (JS.of_nat period - Fin 1) + gain) / JS.of_nat period,
   (avgLoss * (JS.of_nat period - Fin 1) + loss) / JS.of_nat period).

(** [avgGain] and [avgLoss] when the second loop of [calculateRSI] ends. *)
Definition rsi_averages (closes : list JS.num) (period : nat)
    : JS.num * JS.num :=
  let deltas := rsi_deltas closes in
  let '(gains, losses) := rsi_seed deltas period in
  fold_left (rsi_smooth deltas period)
    (seq period (length deltas - period))
    (gains / JS.of_nat period, losses / JS.of_nat period).

Definition calculateRSI (closes : list JS.num) (period : nat) : JS.num :=
  if (length closes <? period + 1)%nat then Fin 50
  else
    let '(avgGain, avgLoss) := rsi_averages closes period in
    if avgLoss === Fin 0 then Fin 100
    else
      let rs := avgGain / avgLoss in
      let rsi := Fin 100 - Fin 100 / (Fin 1 + rs) in
      JS.min (Fin 100) (JS.max (Fin 0) rsi).

Definition calculateEMA (closes : list JS.num) (period : nat)
    : result JS.num :=
  if (length closes =? 0)%nat then Ok (Fin 0)
  else if (length closes <=? period)%nat then
    do s <- reduce1 closes; Ok (s / JS.of_nat (length closes))
  else
    let multiplier := Fin 2 / (JS.of_nat period + Fin 1) in
    do s <- reduce1 (firstn period closes);
    Ok (fold_left
          (fun ema i => JS.get closes i * multiplier + ema * (Fin 1 - multiplier))
          (seq period (length closes - period))
          (s / JS.of_nat period)).

(** The [macdValues] loop of [calculateMACD]: [i] runs from [slow - 1] to the
    last index and each round takes the prefix [closes.slice(0, i + 1)]; the
    list below runs over the prefix length [k = i + 1]. *)
Fixpoint macd_values (closes : list JS.num) (fast slow : nat)
    (ks : list nat) : result (list JS.num) :=
  match ks with
  | [] => Ok []
  | k :: ks' =>
      do ema12sub <- calculateEMA (firstn k closes) fast;
      do ema26sub <- calculateEMA (firstn k closes) slow;
      do rest <- macd_values closes fast slow ks';
      Ok ((ema12sub - ema26sub) :: rest)
  end.

Definition calculateMACD (closes : list JS.num) (fast slow signal : nat)
    : result Macd :=
  if (length closes <? slow + signal - 1)%nat
  then Ok (mkMacd (Fin 0) (Fin 0) (Fin 0))
  else
    do ema12 <- calculateEMA closes fast;
    do ema26 <- calculateEMA closes slow;
    let macdLine := ema12 - ema26 in
    do macdValues <- macd_values closes fast slow
                       (seq slow (S (length closes) - slow));
    do signalLine <- calculateEMA macdValues signal;
    Ok (mkMacd macdLine signalLine (macdLine - signalLine)).

(** One bar of the first loop of [calculateADX]: true range, +DM, -DM. *)
Definition adx_bar (highs lows closes : list JS.num) (i : nat)
    : JS.num * JS.num * JS.num :=
  let tr :=
    JS.max (JS.max (JS.get highs i - JS.get lows i)
                   (JS.abs (JS.get highs i - JS.get closes (i - 1))))
           (JS.abs (JS.get lows i - JS.get closes (i - 1))) in
  let upMove := JS.get highs i - JS.get highs (i - 1) in
  let downMove := JS.get lows (i - 1) - JS.get lows i in
  let plusDM := if (upMove >? downMove) && (upMove >? Fin 0) then upMove else Fin 0 in
  let minusDM :=
    if (downMove >? upMove) && (downMove >? Fin 0) then downMove else Fin 0 in
  (tr, plusDM, minusDM).

Record AdxState : Type := mkAdxState {
  smoothedTR : JS.num;
  smoothedPlusDM : JS.num;
  smoothedMinusDM : JS.num;
  dxValues : list JS.num
}.

(** One round of the smoothing loop of [calculateADX]. *)
Definition adx_step (period : nat) (trueRanges plusDMs minusDMs : list JS.num)
    (st : AdxState) (i : nat) : AdxState :=
  let p := JS.of_nat period in
  let sTR := smoothedTR st - smoothedTR st / p + JS.get trueRanges i in
  let sPlus := smoothedPlusDM st - smoothedPlusDM st / p + JS.get plusDMs i in
  let sMinus :=
    smoothedMinusDM st - smoothedMinusDM st / p + JS.get minusDMs i in
  if sTR === Fin 0 then mkAdxState sTR sPlus sMinus (dxValues st)
  else
    let plusDI := sPlus / sTR * Fin 100 in
    let minusDI := sMinus / sTR * Fin 100 in
    let diSum := plusDI + minusDI in
    let dx :=
      if diSum === Fin 0 then Fin 0
      else JS.abs (plusDI - minusDI) / diSum * Fin 100 in
    mkAdxState sTR sPlus sMinus (dxValues st ++ [dx]).

Definition calculateADX (highs lows closes : list JS.num) (period : nat)
    : JS.num :=
  if (length highs <? period * 2 + 1)%nat then Fin 20
  else
    let bars := map (adx_bar highs lows closes) (seq 1 (length closes - 1)) in
    let trueRanges := map (fun b => fst (fst b)) bars in
    let plusDMs := map (fun b => snd (fst b)) bars in
    let minusDMs := map snd bars in
    let st :=
      fold_left (adx_step period trueRanges plusDMs minusDMs)
        (seq period (length trueRanges - period))
        (mkAdxState (JS.sum (firstn period trueRanges))
                    (JS.sum (firstn period plusDMs))
                    (JS.sum (firstn period minusDMs))
                    []) in
    if (length (dxValues st) =? 0)%nat then Fin 20
    else
      let recentDX := slice_last period (dxValues st) in
      let adx := JS.sum recentDX / JS.of_nat (length recentDX) in
      JS.min (Fin 100) (JS.max (Fin 0) (if JS.isNaN adx then Fin 20 else adx)).

Definition calculateSMA (values : list JS.num) (period : nat)
    : result JS.num :=
  if (length values <? period)%nat then
    Ok (JS.sum values / JS.of_nat (length values))
  else
    let recentValues := slice_last period values in
    do s <- reduce1 recentValues; Ok (s / JS.of_nat period).

Definition calculateVolumeRatio (volumes : list JS.num) (period : nat)
    : result JS.num :=
  if (length volumes =? 0)%nat then Ok (Fin 1)
  else
    let currentVolume := JS.get volumes (length volumes - 1) in
    do avgVolume <- calculateSMA volumes (Nat.min period (length volumes));
    Ok (if avgVolume >? Fin 0 then currentVolume / avgVolume else Fin 1).

Definition calculateMomentum (closes : list JS.num) (period : nat) : JS.num :=
  if (length closes <? period + 1)%nat then Fin 0
  else
    let currentClose := JS.get closes (length closes - 1) in
    let previousClose := JS.get closes (length closes - 1 - period) in
    if previousClose !== Fin 0
    then (currentClose - previousClose) / previousClose
    else Fin 0.

Definition calculateAllIndicators (candles : list Candle)
    : result Indicators :=
  if (length candles =? 0)%nat then
    Ok (mkIndicators (Fin 50) (mkMacd (Fin 0) (Fin 0) (Fin 0)) (Fin 20)
                     (Fin 1) (Fin 0) (Fin 0) (Fin 0) (Fin 0) (Fin 0))
  else
    let closes := map close candles in
    let highs := map high candles in
    let lows := map low candles in
    let volumes := map volume candles in
    let recentCandles := slice_last 20 candles in
    let recentHigh := max_list (map high recentCandles) in
    let recentLow := min_list (map low recentCandles) in
    let momentum1h := calculateMomentum closes (Nat.min 4 (length closes - 1)) in
    let momentum4h :=
      calculateMomentum closes (Nat.min 16 (length closes - 1)) in
    let rsi := calculateRSI closes 14 in
    do macd <- calculateMACD closes 12 26 9;
    let adx := calculateADX highs lows closes 14 in
    do volumeRatio <- calculateVolumeRatio volumes 20;
    do ema200 <- calculateEMA closes 200;
    Ok (mkIndicators rsi macd adx volumeRatio momentum1h momentum4h
                     recentHigh recentLow ema200).

End IndicatorCalculator.

(* ------------------------------------------------------------------ *)
(** ** PositionTracker: the data model *)

Module PyramidLevel.

Inductive Level : Type := L1 | L2.
Inductive Status : Type := active | closed.

Record t : Type := mk {
  level : Level;
  entryPrice : JS.num;
  volume : JS.num;
  entryTime : Z;
  triggerProfitPct : JS.num;
  aiConfidence : JS.num;
  status : Status
}.

Definition Level_eqb (a b : Level) : bool :=
  match a, b with
  | L1, L1 | L2, L2 => true
  | _, _ => false
  end.

End PyramidLevel.

Module PositionTracker.

Inductive Regime : Type := choppy | weak | moderate | strong.
Inductive Status : Type := open | closed.
Inductive Decision : Type := BUY | HOLD.
Inductive Action : Type :=
| ENTRY | PYRAMID | EXIT | EROSION_ALERT | UNDERWATER_ALERT | COLLAPSE_ALERT.

Record AIDecision : Type := mkAIDecision {
  decision : Decision;
  confidence : JS.num;
  reasoning : list string
}.

(** The two fields of [Config] that the tracker reads. *)
Record Config : Type := mkConfig {
  underwaterExitThresholdPct : JS.num;
  underwaterExitMinTimeMinutes : JS.num
}.

Record Position : Type := mkPosition {
  pair : string;
  entryPrice : JS.num;
  volume : JS.num;
  entryTime : Z;
  stopLoss : JS.num;
  profitTarget : JS.num;
  pyramidLevels : list PyramidLevel.t;
  totalVolume : JS.num;
  pyramidLevelsActivated : nat;
  currentProfit : JS.num;
  profitPct : JS.num;
  peakProfit : JS.num;
  erosionCap : JS.num;
  erosionUsed : JS.num;
  aiReasoning : list string;
  adx : JS.num;
  regime : Regime;
  status : Status;
  exitPrice : option JS.num;
  exitTime : option Z;
  exitReason : option string
}.

(** A value of the [details] object of an activity record. *)
Inductive DetailValue : Type :=
| DNum (x : JS.num)
| DStr (s : string).

Record ActivityFeedEntry : Type := mkActivity {
  timestamp : Z;
  activityPair : string;
  action : Action;
  details : list (string * DetailValue)
}.

(** The document of [positions.json]. *)
Record Snapshot : Type := mkSnapshot {
  snapOpen : list Position;
  snapClosed : list Position;
  snapTimestamp : Z
}.

(** The tracker object, with the file it writes as the field [disk]. *)
Record t : Type := mkTracker {
  positions : gmap string Position;
  closedPositions : list Position;
  activityFeed : list ActivityFeedEntry;
  maxActivityFeedSize : nat;
  profitLockGivebackPct : JS.num;
  accountBalance : JS.num;
  disk : option Snapshot
}.

Definition with_positions (m : gmap string Position) (st : t) : t :=
  mkTracker m (closedPositions st) (activityFeed st) (maxActivityFeedSize st)
            (profitLockGivebackPct st) (accountBalance st) (disk st).

Definition with_closedPositions (c : list Position) (st : t) : t :=
  mkTracker (positions st) c (activityFeed st) (maxActivityFeedSize st)
            (profitLockGivebackPct st) (accountBalance st) (disk st).

Definition with_activityFeed (f : list ActivityFeedEntry) (st : t) : t :=
  mkTracker (positions st) (closedPositions st) f (maxActivityFeedSize st)
            (profitLockGivebackPct st) (accountBalance st) (disk st).

Definition with_disk (d : option Snapshot) (st : t) : t :=
  mkTracker (positions st) (closedPositions st) (activityFeed st)
            (maxActivityFeedSize st) (profitLockGivebackPct st)
            (accountBalance st) d.

(** [Array.from(this.positions.values())], in the order of the finite map
    (the JavaScript [Map] iterates in insertion order; nothing below depends
    on the order). *)
Definition values (m : gmap string Position) : list Position :=
  map snd (map_to_list m).

(** What [savePositions] would write at time [now]: the document before
    [JSON.stringify]. *)
Definition snapshot (st : t) (now : Z) : Snapshot :=
  mkSnapshot (values (positions st)) (closedPositions st) now.

(** The write is taken to succeed (the method catches and logs a failure of
    [fs.writeFileSync]). *)
Definition savePositions (now : Z) (st : t) : t :=
  with_disk (Some (snapshot st now)) st.

Definition loadPositions (st : t) : t :=
  match disk st with
  | Some data =>
      with_positions
        (fold_left (fun m posData => <[pair posData := posData]> m)
                   (snapOpen data) (positions st))
        (with_closedPositions (snapClosed data) st)
  | None => st
  end.

(** [new PositionTracker(dataDir, profitLockGivebackPct, accountBalance)] over
    the file content [file]. *)
Definition new (file : option Snapshot)
    (profitLockGivebackPct accountBalance : JS.num) : t :=
  loadPositions
    (mkTracker ∅ [] [] 100 profitLockGivebackPct accountBalance file).

Definition logActivity (entry : ActivityFeedEntry) (st : t) : t :=
  let feed := activityFeed st ++ [entry] in
  if (maxActivityFeedSize st <? length feed)%nat
  then with_activityFeed (slice_last (maxActivityFeedSize st) feed) st
  else with_activityFeed feed st.

Definition getPosition (st : t) (pair : string) : option Position :=
  positions st !! pair.

Definition getOpenPositions (st : t) : list Position :=
  List.filter (fun p => match status p with open => true | closed => false end)
              (values (positions st)).

Definition getClosedPositions (st : t) : list Position := closedPositions st.

Definition getActivityFeed (st : t) (limit : nat) : list ActivityFeedEntry :=
  rev (slice_last limit (activityFeed st)).

Definition updateAccountBalance (balance : JS.num) (st : t) : t :=
  mkTracker (positions st) (closedPositions st) (activityFeed st)
            (maxActivityFeedSize st) (profitLockGivebackPct st) balance
            (disk st).

Definition clearAll (st : t) : t := with_positions ∅ st.

(** The three groups of fields that the methods assign. *)
Definition set_profit (cur pct peak erosion : JS.num) (p : Position)
    : Position :=
  mkPosition (pair p) (entryPrice p) (volume p) (entryTime p) (stopLoss p)
    (profitTarget p) (pyramidLevels p) (totalVolume p)
    (pyramidLevelsActivated p) cur pct peak (erosionCap p) erosion
    (aiReasoning p) (adx p) (regime p) (status p) (exitPrice p) (exitTime p)
    (exitReason p).

Definition set_pyramid (levels : list PyramidLevel.t) (total : JS.num)
    (activated : nat) (p : Position) : Position :=
  mkPosition (pair p) (entryPrice p) (volume p) (entryTime p) (stopLoss p)
    (profitTarget p) levels total activated (currentProfit p) (profitPct p)
    (peakProfit p) (erosionCap p) (erosionUsed p) (aiReasoning p) (adx p)
    (regime p) (status p) (exitPrice p) (exitTime p) (exitReason p).

Definition set_exit (price : JS.num) (time : Z) (reason : string)
    (cur pct : JS.num) (p : Position) : Position :=
  mkPosition (pair p) (entryPrice p) (volume p) (entryTime p) (stopLoss p)
    (profitTarget p) (pyramidLevels p) (totalVolume p)
    (pyramidLevelsActivated p) cur pct (peakProfit p) (erosionCap p)
    (erosionUsed p) (aiReasoning p) (adx p) (regime p) closed (Some price)
    (Some time) (Some reason).

Definition addPosition (now : Z) (pair : string)
    (entryPrice volume stopLoss profitTarget : JS.num)
    (aiDecision : AIDecision) (adx : JS.num) (regime : Regime)
    (erosionCap : JS.num) (st : t) : t :=
  match positions st !! pair with
  | Some _ => st
  | None =>
      let position :=
        mkPosition pair entryPrice volume now stopLoss profitTarget
          [] volume 0 (Fin 0) (Fin 0) (Fin 0) erosionCap (Fin 0)
          (reasoning aiDecision) adx regime open None None None in
      let st := with_positions (<[pair := position]> (positions st)) st in
      let st := savePositions now st in
      logActivity
        (mkActivity now pair ENTRY
           [("price"%string, DNum entryPrice); ("volume"%string, DNum volume)])
        st
  end.

(** The loop of [updatePosition] over the pyramid levels: the running
    [(totalProfit, totalCost)]. *)
Definition add_level (currentPrice : JS.num) (acc : JS.num * JS.num)
    (level : PyramidLevel.t) : JS.num * JS.num :=
  let '(totalProfit, totalCost) := acc in
  let levelCost := PyramidLevel.entryPrice level * PyramidLevel.volume level in
  let levelProfit :=
    (currentPrice - PyramidLevel.entryPrice level) * PyramidLevel.volume level in
  (totalProfit + levelProfit, totalCost + levelCost).

(** What [updatePosition] leaves in the position object. *)
Definition refreshed (position : Position) (currentPrice : JS.num)
    : Position :=
  let l0Cost := entryPrice position * volume position in
  let l0Profit := (currentPrice - entryPrice position) * volume position in
  let '(totalProfit, totalCost) :=
    fold_left (add_level currentPrice) (pyramidLevels position)
              (Fin 0 + l0Profit, Fin 0 + l0Cost) in
  let pct :=
    if totalCost >? Fin 0 then totalProfit / totalCost * Fin 100 else Fin 0 in
  if totalProfit >? peakProfit position
  then set_profit totalProfit pct totalProfit (Fin 0) position
  else set_profit totalProfit pct (peakProfit position)
                  (peakProfit position - totalProfit) position.

Definition updatePosition (pair : string) (currentPrice : JS.num) (st : t)
    : t :=
  match positions st !! pair with
  | None => st
  | Some position =>
      with_positions (<[pair := refreshed position currentPrice]> (positions st))
                     st
  end.

Definition addPyramidLevel (now : Z) (pair : string)
    (level : PyramidLevel.Level) (entryPrice volume aiConfidence : JS.num)
    (st : t) : bool * t :=
  match positions st !! pair with
  | None => (false, st)
  | Some position =>
      if (2 <=? pyramidLevelsActivated position)%nat then (false, st)
      else if existsb
                (fun l => PyramidLevel.Level_eqb (PyramidLevel.level l) level)
                (pyramidLevels position)
      then (false, st)
      else
        let triggerPct :=
          match level with
          | PyramidLevel.L1 => Fin (45 # 1000)
          | PyramidLevel.L2 => Fin (8 # 100)
          end in
        let pyramidLevel :=
          PyramidLevel.mk level entryPrice volume now triggerPct aiConfidence
                          PyramidLevel.active in
        let position' :=
          set_pyramid (pyramidLevels position ++ [pyramidLevel])
                      (totalVolume position + volume)
                      (S (pyramidLevelsActivated position)) position in
        let st := with_positions (<[pair := position']> (positions st)) st in
        let st := savePositions now st in
        (true,
         logActivity
           (mkActivity now pair PYRAMID
              [("price"%string, DNum entryPrice);
               ("volume"%string, DNum volume)])
           st)
  end.

(** [totalCost] of [checkErosionCap] and [checkProfitableCollapse]. *)
Definition totalCostOf (position : Position) : JS.num :=
  entryPrice position * volume position
  + fold_left
      (fun sum lvl => sum + PyramidLevel.entryPrice lvl * PyramidLevel.volume lvl)
      (pyramidLevels position) (Fin 0).

(** [peakProfitPct] of the same two methods. *)
Definition peakProfitPctOf (position : Position) : JS.num :=
  let totalCost := totalCostOf position in
  if totalCost >? Fin 0
  then peakProfit position / totalCost * Fin 100
  else Fin 0.

Definition checkErosionCap (now : Z) (pair : string) (st : t) : bool * t :=
  match positions st !! pair with
  | None => (false, st)
  | Some position =>
      if peakProfit position <=? Fin 0 then (false, st)
      else
        let peakProfitPct := peakProfitPctOf position in
        if peakProfitPct <? Fin 1 then (false, st)
        else
          let givebackRatio := erosionUsed position / peakProfit position in
          let givebackPct := givebackRatio * Fin 100 in
          if givebackRatio >? profitLockGivebackPct st then
            (true,
             logActivity
               (mkActivity now pair EROSION_ALERT
                  [("erosionPct"%string, DNum (JS.toFixed 2 givebackPct));
                   ("peakProfit"%string,
                    DNum (JS.toFixed 2 (peakProfit position)));
                   ("currentProfit"%string,
                    DNum (JS.toFixed 2 (currentProfit position)))])
               st)
          else (false, st)
  end.

Definition checkUnderwaterExit (now : Z) (pair : string) (config : Config)
    (st : t) : bool * t :=
  match positions st !! pair with
  | None => (false, st)
  | Some position =>
      if peakProfit position >? Fin 0 then (false, st)
      else if currentProfit position >=? Fin 0 then (false, st)
      else
        let ageMinutes := JS.of_Z (now - entryTime position) / Fin 60000 in
        if ageMinutes <? underwaterExitMinTimeMinutes config then (false, st)
        else
          let lossPct := profitPct position in
          let thresholdPct := underwaterExitThresholdPct config * Fin 100 in
          if lossPct <? thresholdPct then
            (true,
             logActivity
               (mkActivity now pair UNDERWATER_ALERT
                  [("lossPct"%string, DNum (JS.toFixed 2 lossPct));
                   ("ageMinutes"%string, DNum (JS.toFixed 1 ageMinutes))])
               st)
          else (false, st)
  end.

Definition checkProfitableCollapse (now : Z) (pair : string) (st : t)
    : bool * t :=
  match positions st !! pair with
  | None => (false, st)
  | Some position =>
      let peakProfitPct := peakProfitPctOf position in
      if peakProfitPct <? Fin (1 # 2) then (false, st)
      else if currentProfit position >=? Fin 0 then (false, st)
      else
        (true,
         logActivity
           (mkActivity now pair COLLAPSE_ALERT
              [("peakProfitPct"%string, DNum (JS.toFixed 2 peakProfitPct));
               ("currentProfitPct"%string,
                DNum (JS.toFixed 2 (profitPct position)))])
           st)
  end.

Definition checkStopLoss (st : t) (pair : string) (currentPrice : JS.num)
    : bool :=
  match positions st !! pair with
  | None => false
  | Some position => currentPrice <=? stopLoss position
  end.

Definition checkProfitTarget (st : t) (pair : string) (currentPrice : JS.num)
    : bool :=
  match positions st !! pair with
  | None => false
  | Some position => currentPrice >=? profitTarget position
  end.

Definition isReadyForL1 (st : t) (pair : string)
    (currentProfit l1TriggerPct : JS.num) : bool :=
  match positions st !! pair with
  | None => false
  | Some position =>
      if (1 <=? pyramidLevelsActivated position)%nat then false
      else currentProfit >=? l1TriggerPct
  end.

Definition isReadyForL2 (st : t) (pair : string)
    (currentProfit l2TriggerPct : JS.num) : bool :=
  match positions st !! pair with
  | None => false
  | Some position =>
      if (pyramidLevelsActivated position <? 1)%nat then false
      else if (2 <=? pyramidLevelsActivated position)%nat then false
      else currentProfit >=? l2TriggerPct
  end.

(** What [closePosition] leaves in the position object. *)
Definition exited (now : Z) (position : Position) (exitPrice : JS.num)
    (exitReason : string) : Position :=
  let profitPct := (exitPrice - entryPrice position) / entryPrice position in
  set_exit exitPrice now exitReason
           (volume position * profitPct * entryPrice position)
           (profitPct * Fin 100) position.

Definition closePosition (now : Z) (pair : string) (exitPrice : JS.num)
    (exitReason : string) (st : t) : t :=
  match positions st !! pair with
  | None => st
  | Some position =>
      let position' := exited now position exitPrice exitReason in
      let st :=
        logActivity
          (mkActivity now pair EXIT
             [("price"%string, DNum exitPrice);
              ("profit"%string, DNum (currentProfit position'));
              ("profitPct"%string, DNum (profitPct position'));
              ("reason"%string, DStr exitReason)])
          st in
      let st := with_closedPositions (closedPositions st ++ [position']) st in
      let st := with_positions (delete pair (positions st)) st in
      savePositions now st
  end.

Record PerformanceStats : Type := mkStats {
  totalTrades : nat;
  winningTrades : nat;
  losingTrades : nat;
  winRate : JS.num;
  totalProfit : JS.num;
  totalLoss : JS.num;
  expectancy : JS.num;
  profitFactor : JS.num;
  maxDrawdown : JS.num;
  maxDrawdownPct : JS.num
}.

(** The local variables of the loop of [getPerformanceStats]. *)
Record PerfLoop : Type := mkPerfLoop {
  loopTotalProfit : JS.num;
  loopTotalLoss : JS.num;
  loopWinningTrades : nat;
  loopLosingTrades : nat;
  loopMaxDrawdown : JS.num;
  loopCumulativeProfit : JS.num;
  loopPeak : JS.num
}.

Definition perf_init : PerfLoop :=
  mkPerfLoop (Fin 0) (Fin 0) 0 0 (Fin 0) (Fin 0) (Fin 0).

(** One round of the loop of [getPerformanceStats]. *)
Definition perf_step (acc : PerfLoop) (position : Position) : PerfLoop :=
  let profit := JS.or_zero (currentProfit position) in
  let win := profit >? Fin 0 in
  let totalProfit :=
    if win then loopTotalProfit acc + profit else loopTotalProfit acc in
  let winningTrades :=
    if win then S (loopWinningTrades acc) else loopWinningTrades acc in
  let totalLoss :=
    if win then loopTotalLoss acc else loopTotalLoss acc + JS.abs profit in
  let losingTrades :=
    if win then loopLosingTrades acc else S (loopLosingTrades acc) in
  let cumulativeProfit := loopCumulativeProfit acc + profit in
  let peak :=
    if cumulativeProfit >? loopPeak acc then cumulativeProfit
    else loopPeak acc in
  let drawdown := peak - cumulativeProfit in
  let maxDrawdown :=
    if drawdown >? loopMaxDrawdown acc then drawdown
    else loopMaxDrawdown acc in
  mkPerfLoop totalProfit totalLoss winningTrades losingTrades maxDrawdown
             cumulativeProfit peak.

Definition perf_loop (closedPositions : list Position) : PerfLoop :=
  fold_left perf_step closedPositions perf_init.

Definition getPerformanceStats (st : t) : PerformanceStats :=
  if (length (closedPositions st) =? 0)%nat then
    mkStats 0 0 0 (Fin 0) (Fin 0) (Fin 0) (Fin 0) (Fin 0) (Fin 0) (Fin 0)
  else
    let acc := perf_loop (closedPositions st) in
    let totalProfit := loopTotalProfit acc in
    let totalLoss := loopTotalLoss acc in
    let totalTrades := length (closedPositions st) in
    let winRate :=
      if (0 <? totalTrades)%nat
      then JS.of_nat (loopWinningTrades acc) / JS.of_nat totalTrades * Fin 100
      else Fin 0 in
    let totalGain := totalProfit - totalLoss in
    let expectancy :=
      if (0 <? totalTrades)%nat then totalGain / JS.of_nat totalTrades
      else Fin 0 in
    let profitFactor :=
      if totalLoss >? Fin 0 then totalProfit / totalLoss
      else if totalProfit >? Fin 0 then JS.PInf else Fin 0 in
    let maxDrawdownPct :=
      if accountBalance st >? Fin 0
      then loopMaxDrawdown acc / accountBalance st * Fin 100
      else Fin 0 in
    mkStats totalTrades (loopWinningTrades acc) (loopLosingTrades acc) winRate
            totalProfit totalLoss expectancy profitFactor
            (loopMaxDrawdown acc) maxDrawdownPct.

End PositionTracker.

(* ------------------------------------------------------------------ *)
(** ** Predicates used in the statements *)

Import PositionTracker.

(** The cost basis of a position is made of finite numbers: entry price and
    volume of the initial entry and of every pyramid level. *)
Definition finite_level (l : PyramidLevel.t) : Prop :=
  JS.isFinite (PyramidLevel.entryPrice l) = true
  /\ JS.isFinite (PyramidLevel.volume l) = true.

Definition finite_basis (p : Position) : Prop :=
  JS.isFinite (entryPrice p) = true
  /\ JS.isFinite (volume p) = true
  /\ Forall finite_level (pyramidLevels p).

(** A position as [addPosition] creates it: no pyramid level yet. *)
Definition no_pyramid_levels (p : Position) : Prop :=
  pyramidLevels p = [] /\ pyramidLevelsActivated p = 0%nat.

(** The level that [addPyramidLevel] builds. *)
Definition new_level (now : Z) (level : PyramidLevel.Level)
    (entryPrice volume aiConfidence : JS.num) : PyramidLevel.t :=
  PyramidLevel.mk level entryPrice volume now
    match level with
    | PyramidLevel.L1 => Fin (45 # 1000)
    | PyramidLevel.L2 => Fin (8 # 100)
    end
    aiConfidence PyramidLevel.active.

(** A run of [updatePosition] calls on one pair. *)
Definition refreshes (pair : string) (prices : list JS.num) (st : t) : t :=
  fold_left (fun s price => updatePosition pair price s) prices st.


(** The test [profit > 0] of [getPerformanceStats] on a closed position: a
    win is a strictly positive profit. *)
Definition is_win (p : Position) : bool :=
  JS.or_zero (currentProfit p) >? Fin 0.

(** The pyramid bookkeeping of a position is consistent: the counter is the
    number of levels and no level number occurs twice. *)
Definition pyramid_ok (p : Position) : Prop :=
  pyramidLevelsActivated p = length (pyramidLevels p)
  /\ List.NoDup (map PyramidLevel.level (pyramidLevels p)).

(** The arguments of one [addPyramidLevel] call on a pair, and a run of such
    calls. *)
Record PyramidCall : Type := mkPyramidCall {
  callTime : Z;
  callLevel : PyramidLevel.Level;
  callPrice : JS.num;
  callVolume : JS.num;
  callConfidence : JS.num
}.

Definition pyramidCalls (pair : string) (calls : list PyramidCall) (st : t)
    : t :=
  fold_left
    (fun s c =>
       snd (addPyramidLevel (callTime c) pair (callLevel c) (callPrice c)
                            (callVolume c) (callConfidence c) s))
    calls st.

(** A series that never falls: no delta of [calculateRSI] is negative (or
    [NaN]). *)
Definition never_falls (closes : list JS.num) : Prop :=
  Forall (fun d => (Fin 0 <=? d) = true) (IndicatorCalculator.rsi_deltas closes).

(** The running loss of [calculateRSI] is a finite zero. *)
Definition zero_loss (acc : JS.num * JS.num) : Prop :=
  exists l, snd acc = Fin l /\ (l == 0)%Q.

(* ------------------------------------------------------------------ *)
(** ** The scenarios of the specification *)

Module Scenario.

Definition ai : AIDecision := mkAIDecision BUY (Fin 80) [].

(** A fresh tracker with the default giveback fraction [0.5]. *)
Definition fresh : t := new None (Fin (1 # 2)) (Fin 1000).

(** ETH/USD opened at 3000 with volume 1, refreshed at 3015, then at 3005. *)
Definition eth : string := "ETH/USD".
Definition eth_open : t :=
  addPosition 0 eth (Fin 3000) (Fin 1) (Fin 2900) (Fin 3200) ai (Fin 0)
              moderate (Fin (8 # 1000)) fresh.
Definition eth_3015 : t := updatePosition eth (Fin 3015) eth_open.
Definition eth_3005 : t := updatePosition eth (Fin 3005) eth_3015.

(** The same entry with a peak of 2% of the cost basis: 3060, then 3020. *)
Definition eth_3060 : t := updatePosition eth (Fin 3060) eth_open.
Definition eth_3020 : t := updatePosition eth (Fin 3020) eth_3060.

(** A pair opened at 100 with volume 10 (cost basis 1000) at time 0, drifting
    to 99.1 without ever turning positive. *)
Definition uw : string := "SOL/USD".
Definition uw_open : t :=
  addPosition 0 uw (Fin 100) (Fin 10) (Fin 95) (Fin 110) ai (Fin 0)
              moderate (Fin (8 # 1000)) fresh.
Definition uw_991 : t := updatePosition uw (Fin (991 # 10)) uw_open.
Definition uw_config : Config := mkConfig (Fin (-8 # 1000)) (Fin 15).
Definition minutes (n : Z) : Z := (n * 60000)%Z.

(** The same pair after a peak of 1% of the cost basis (price 101), back at
    the entry price: current profit exactly 0. *)
Definition uw_101 : t := updatePosition uw (Fin 101) uw_open.
Definition uw_breakeven : t := updatePosition uw (Fin 100) uw_101.

End Scenario.

(* ------------------------------------------------------------------ *)
(** ** The tracker as a state machine *)

(** One call of a method of the tracker that can change its state. *)
Inductive Op : Type :=
| OpAddPosition (now : Z) (pair : string)
    (entryPrice volume stopLoss profitTarget : JS.num) (ai : AIDecision)
    (adx : JS.num) (regime : Regime) (erosionCap : JS.num)
| OpUpdatePosition (pair : string) (currentPrice : JS.num)
| OpAddPyramidLevel (now : Z) (pair : string) (level : PyramidLevel.Level)
    (entryPrice volume aiConfidence : JS.num)
| OpCheckErosionCap (now : Z) (pair : string)
| OpCheckUnderwaterExit (now : Z) (pair : string) (config : Config)
| OpCheckProfitableCollapse (now : Z) (pair : string)
| OpClosePosition (now : Z) (pair : string) (exitPrice : JS.num)
    (exitReason : string)
| OpUpdateAccountBalance (balance : JS.num)
| OpClearAll.

(** The state a call leaves (its return value dropped). *)
Definition step (op : Op) (st : t) : t :=
  match op with
  | OpAddPosition now pair entryPrice volume stopLoss profitTarget ai adx
                  regime erosionCap =>
      addPosition now pair entryPrice volume stopLoss profitTarget ai adx
                  regime erosionCap st
  | OpUpdatePosition pair currentPrice => updatePosition pair currentPrice st
  | OpAddPyramidLevel now pair level entryPrice volume aiConfidence =>
      snd (addPyramidLevel now pair level entryPrice volume aiConfidence st)
  | OpCheckErosionCap now pair => snd (checkErosionCap now pair st)
  | OpCheckUnderwaterExit now pair config =>
      snd (checkUnderwaterExit now pair config st)
  | OpCheckProfitableCollapse now pair =>
      snd (checkProfitableCollapse now pair st)
  | OpClosePosition now pair exitPrice exitReason =>
      closePosition now pair exitPrice exitReason st
  | OpUpdateAccountBalance balance => updateAccountBalance balance st
  | OpClearAll => clearAll st
  end.

Definition run (ops : list Op) (st : t) : t :=
  fold_left (fun s op => step op s) ops st.

(** The pair a call names, if it names one. *)
Definition op_pair (op : Op) : option string :=
  match op with
  | OpAddPosition _ pair _ _ _ _ _ _ _ _
  | OpUpdatePosition pair _
  | OpAddPyramidLevel _ pair _ _ _ _
  | OpCheckErosionCap _ pair
  | OpCheckUnderwaterExit _ pair _
  | OpCheckProfitableCollapse _ pair
  | OpClosePosition _ pair _ _ => Some pair
  | OpUpdateAccountBalance _ | OpClearAll => None
  end.

(** An open position as the tracker keeps it under the key [k]: stored under
    its own pair, open, no exit recorded, pyramid bookkeeping consistent. *)
Definition open_ok (k : string) (p : Position) : Prop :=
  pair p = k
  /\ status p = open
  /\ exitPrice p = None /\ exitTime p = None /\ exitReason p = None
  /\ pyramid_ok p.

(** An entry of the closed history: closed, with its exit recorded. *)
Definition closed_ok (p : Position) : Prop :=
  status p = closed
  /\ is_Some (exitPrice p) /\ is_Some (exitTime p) /\ is_Some (exitReason p).

Definition well_formed (st : t) : Prop :=
  (forall k p, positions st !! k = Some p -> open_ok k p)
  /\ Forall closed_ok (closedPositions st).

(** Every number of a position is finite, so [JSON.stringify] writes it and
    [JSON.parse] reads the same number back. *)
Definition json_level (l : PyramidLevel.t) : Prop :=
  JS.isFinite (PyramidLevel.entryPrice l) = true
  /\ JS.isFinite (PyramidLevel.volume l) = true
  /\ JS.isFinite (PyramidLevel.triggerProfitPct l) = true
  /\ JS.isFinite (PyramidLevel.aiConfidence l) = true.

Definition json_position (p : Position) : Prop :=
  JS.isFinite (entryPrice p) = true
  /\ JS.isFinite (volume p) = true
  /\ JS.isFinite (stopLoss p) = true
  /\ JS.isFinite (profitTarget p) = true
  /\ Forall json_level (pyramidLevels p)
  /\ JS.isFinite (totalVolume p) = true
  /\ JS.isFinite (currentProfit p) = true
  /\ JS.isFinite (profitPct p) = true
  /\ JS.isFinite (peakProfit p) = true
  /\ JS.isFinite (erosionCap p) = true
  /\ JS.isFinite (erosionUsed p) = true
  /\ JS.isFinite (adx p) = true
  /\ match exitPrice p with Some x => JS.isFinite x = true | None => True end.

Definition json_state (st : t) : Prop :=
  (forall k p, positions st !! k = Some p -> json_position p)
  /\ Forall json_position (closedPositions st).


(* ------------------------------------------------------------------ *)
(** ** Predicates on the closed history *)

(** A number that is [>= 0]: not negative and not [NaN] ([+Infinity] is). *)
Definition not_negative (x : JS.num) : Prop := (Fin 0 <=? x) = true.

(** The invariant of the loop of [getPerformanceStats] after [n] closed
    positions: both totals and the largest drawdown are [>= 0] and every
    position was counted once. *)
Definition perf_invariant (n : nat) (acc : PerfLoop) : Prop :=
  not_negative (loopTotalProfit acc)
  /\ not_negative (loopTotalLoss acc)
  /\ not_negative (loopMaxDrawdown acc)
  /\ (loopWinningTrades acc + loopLosingTrades acc = n)%nat.


(* ------------------------------------------------------------------ *)
(** ** Pyramid levels in order *)

(** The levels of a position are level 1, then level 2, as many as the
    counter says. *)
Definition ordered_levels (p : Position) : Prop :=
  (pyramidLevelsActivated p <= 2)%nat
  /\ map PyramidLevel.level (pyramidLevels p)
     = firstn (pyramidLevelsActivated p) [PyramidLevel.L1; PyramidLevel.L2].

(** The fields of the initial entry. *)
Definition entry_of (p : Position)
    : string * JS.num * JS.num * Z * JS.num * JS.num :=
  (pair p, entryPrice p, volume p, entryTime p, stopLoss p, profitTarget p).


(* ------------------------------------------------------------------ *)
(** ** Predicates on indicator input *)

(** Every number of the array is finite and lies between [lo] and [hi]. *)
Definition within (lo hi : Q) (a : list JS.num) : Prop :=
  Forall (fun x => exists q, x = Fin q /\ (lo <= q <= hi)%Q) a.

(** A call throws. *)
Definition throws {A : Type} (r : result A) : Prop :=
  exists e, r = Throw e.


(** The state of the smoothing loop of [calculateADX] while no bar has had
    any range: the smoothed true range is 0 and no DX value is recorded. *)
Definition no_range (st : IndicatorCalculator.AdxState) : Prop :=
  (exists t, IndicatorCalculator.smoothedTR st = Fin t /\ (t == 0)%Q)
  /\ IndicatorCalculator.dxValues st = [].

(* ------------------------------------------------------------------ *)
(** ** BinanceClient: retries and symbol names *)

Module BinanceClient.

Definition REQUEST_DELAY_MS : Z := 100.
Definition MAX_RETRIES : Z := 2.

(** What one call of [fn], raced against the timeout, settles to: a value,
    or a rejection; of the rejection the code reads [error?.status] only,
    which is [None] when the field is missing or is not a number. *)
Inductive Outcome (T : Type) : Type :=
| Resolves (v : T)
| Rejects (status : option Z).
Arguments Resolves {T} v.
Arguments Rejects {T} status.

(** What [withRetry] rejects with: the error of [fn] thrown again, or its
    own [new Error('Max retries exceeded')]. *)
Inductive Failure : Type :=
| Rethrown (status : option Z)
| MaxRetriesExceeded.

Inductive Settled (T : Type) : Type :=
| Fulfilled (v : T)
| Rejected (f : Failure).
Arguments Fulfilled {T} v.
Arguments Rejected {T} f.

(** What [withRetry] does to the outside, in order: the wait that spaces two
    requests, the call of [fn], the wait before the next attempt. *)
Inductive Event : Type :=
| Delay (ms : Z)
| Call (attempt : nat)
| Backoff (ms : Z).

(** The field [lastCallTime] of the client, the number of readings of
    [Date.now()] so far, and the events so far. *)
Record World : Type := mkWorld {
  lastCallTime : Z;
  tick : nat;
  trace : list Event
}.

(** [error?.status === n] *)
Definition status_is (status : option Z) (n : Z) : bool :=
  match status with
  | Some s => (s =? n)%Z
  | None => false
  end.

(** The loop of [withRetry] from [attempt] on, [fuel] rounds being left;
    [now k] is the [k]-th reading of [Date.now()] and [fn k] what the call of
    [fn] in attempt [k] settles to. *)
Fixpoint attempts {T : Type} (now : nat -> Z) (fn : nat -> Outcome T)
    (retries : Z) (fuel attempt : nat) (w : World) : Settled T * World :=
  match fuel with
  | O => (Rejected MaxRetriesExceeded, w)
  | S fuel' =>
      let timeSinceLastCall := (now (tick w) - lastCallTime w)%Z in
      let waited :=
        if (timeSinceLastCall <? REQUEST_DELAY_MS)%Z
        then [Delay (REQUEST_DELAY_MS - timeSinceLastCall)]
        else [] in
      let w1 := mkWorld (now (S (tick w))) (S (S (tick w)))
                        (trace w ++ waited ++ [Call attempt]) in
      match fn attempt with
      | Resolves v => (Fulfilled v, w1)
      | Rejects status =>
          if status_is status 429 then (Rejected (Rethrown status), w1)
          else if status_is status 401 || status_is status 403
          then (Rejected (Rethrown status), w1)
          else if (Z.of_nat attempt =? retries)%Z
          then (Rejected (Rethrown status), w1)
          else
            let backoffMs := (2 ^ Z.of_nat attempt * 1000)%Z in
            attempts now fn retries fuel' (S attempt)
              (mkWorld (lastCallTime w1) (tick w1)
                       (trace w1 ++ [Backoff backoffMs]))
      end
  end.

(** [withRetry(fn, retries)] for an integer [retries]: [attempt] runs from 0
    while [attempt <= retries]. *)
Definition withRetry {T : Type} (now : nat -> Z) (fn : nat -> Outcome T)
    (retries : Z) (w : World) : Settled T * World :=
  attempts now fn retries (Z.to_nat (retries + 1)) 0 w.

(** [String.prototype.toUpperCase] on a string of ASCII characters. *)
Definition upper (c : Ascii.ascii) : Ascii.ascii :=
  let n := Ascii.nat_of_ascii c in
  if (97 <=? n)%nat && (n <=? 122)%nat then Ascii.ascii_of_nat (n - 32) else c.

Fixpoint toUpperCase (s : string) : string :=
  match s with
  | EmptyString => EmptyString
  | String c s' => String (upper c) (toUpperCase s')
  end.

(** [s.replace('/', '')]: a string pattern replaces the first match only. *)
Fixpoint replace_slash (s : string) : string :=
  match s with
  | EmptyString => EmptyString
  | String c s' =>
      if Ascii.eqb c "/"%char then s' else String c (replace_slash s')
  end.

Definition mappings : list (string * string) :=
  [("BTC/USD", "BTCUSD"); ("ETH/USD", "ETHUSD");
   ("BTC/USDT", "BTCUSDT"); ("ETH/USDT", "ETHUSDT")].

(** [mappings[key]]: the value of an own key, [undefined] otherwise (the
    inherited property names all have a lower-case letter, and the keys
    looked up have none). *)
Fixpoint get_mapping (key : string) (m : list (string * string))
    : option string :=
  match m with
  | [] => None
  | (k, v) :: m' => if String.eqb key k then Some v else get_mapping key m'
  end.

Definition mapSymbol (pair : string) : string :=
  let normalized := toUpperCase pair in
  match get_mapping normalized mappings with
  | Some symbol =>
      if String.eqb symbol "" then replace_slash normalized else symbol
  | None => replace_slash normalized
  end.

End BinanceClient.

(** What a call of [fn] makes [withRetry] settle to when it is the last. *)
Definition settle {T : Type} (o : BinanceClient.Outcome T)
    : BinanceClient.Settled T :=
  match o with
  | BinanceClient.Resolves v => BinanceClient.Fulfilled v
  | BinanceClient.Rejects s => BinanceClient.Rejected (BinanceClient.Rethrown s)
  end.

(** A rejection that [withRetry] answers with another attempt: its status is
    none of 429, 401, 403. *)
Definition retriable {T : Type} (o : BinanceClient.Outcome T) : Prop :=
  exists s, o = BinanceClient.Rejects s
            /\ BinanceClient.status_is s 429 = false
            /\ BinanceClient.status_is s 401 = false
            /\ BinanceClient.status_is s 403 = false.

(** The attempts called and the back-off waits of a run, in order. *)
Definition calls (tr : list BinanceClient.Event) : list nat :=
  flat_map (fun e => match e with BinanceClient.Call a => [a] | _ => [] end) tr.

Definition backoffs (tr : list BinanceClient.Event) : list Z :=
  flat_map (fun e => match e with BinanceClient.Backoff ms => [ms] | _ => [] end)
           tr.

Definition delays (tr : list BinanceClient.Event) : list Z :=
  flat_map (fun e => match e with BinanceClient.Delay ms => [ms] | _ => [] end)
           tr.

(** The characters for which the strings of the model are those of
    JavaScript. *)
Definition ascii_only (s : string) : Prop :=
  Forall (fun c => (Ascii.nat_of_ascii c < 128)%nat) (String.list_ascii_of_string s).

(** The string has no slash. *)
Fixpoint no_slash (s : string) : bool :=
  match s with
  | EmptyString => true
  | String c s' => negb (Ascii.eqb c "/"%char) && no_slash s'
  end.


(** A run of [withRetry]: the clock advances 40 ms per reading, the first
    two attempts are rejected with status 500 and the third resolves. *)
Module RetryScenario.

Definition clock (k : nat) : Z := (Z.of_nat k * 40)%Z.

Definition flaky (attempt : nat) : BinanceClient.Outcome nat :=
  if (attempt <? 2)%nat then BinanceClient.Rejects (Some 500%Z)
  else BinanceClient.Resolves 7%nat.

Definition idle : BinanceClient.World := BinanceClient.mkWorld 0 0 [].

End RetryScenario.

(* ------------------------------------------------------------------ *)
(** ** Numbers: comparison and finiteness lemmas *)

Lemma Qltb_true (a b : Q) : JS.Qltb a b = true <-> (a < b)%Q.
Proof.
  unfold JS.Qltb. rewrite negb_true_iff.
  split.
  - intros H. apply Qnot_le_lt. intros Hle.
    apply Qle_bool_iff in Hle. congruence.
  - intros H. destruct (Qle_bool b a) eqn:E; [|reflexivity].
    apply Qle_bool_iff in E. exfalso. apply (Qlt_not_le _ _ H E).
Qed.

Lemma Qltb_false (a b : Q) : JS.Qltb a b = false <-> (b <= a)%Q.
Proof.
  unfold JS.Qltb. rewrite negb_false_iff. apply Qle_bool_iff.
Qed.

Lemma isFinite_inv (x : JS.num) :
  JS.isFinite x = true -> exists q, x = Fin q.
Proof. destruct x; simpl; intros H; try discriminate. by exists q. Qed.

(* ------------------------------------------------------------------ *)
(** ** Erosion cap: the ETH/USD scenario *)

Section ErosionScenario.
Import Scenario.

(** The guard of [checkErosionCap] on the peak: whatever the giveback, a peak
    below 1% of the cost basis makes the check answer [false] and leave the
    tracker as it is. *)
Lemma checkErosionCap_small_peak (now : Z) (pair : string) (st : t)
    (p : Position) :
  positions st !! pair = Some p ->
  (peakProfitPctOf p <? Fin 1) = true ->
  checkErosionCap now pair st = (false, st).
Proof.
  intros Hp Hsmall. unfold checkErosionCap. rewrite Hp.
  destruct (peakProfit p <=? Fin 0); [reflexivity|].
  by rewrite Hsmall.
Qed.

(** With a peak of 2% of the cost basis the same giveback of two thirds does
    trigger the exit. *)
Example erosion_cap_triggers_at_two_percent :
  fst (checkErosionCap 1 eth eth_3020) = true.
Proof. vm_compute. reflexivity. Qed.

(** C1 (as stated, refuted): after the refreshes at 3015 and 3005 the
    giveback ratio is 10/15, above the configured 0.5, and still
    [checkErosionCap] answers [false]. *)
Lemma C1_erosion_scenario_returns_false :
  exists p,
    getPosition eth_3005 eth = Some p
    /\ (erosionUsed p / peakProfit p >? profitLockGivebackPct eth_3005) = true
    /\ fst (checkErosionCap 1 eth eth_3005) = false.
Proof.
  eexists. split; [vm_compute; reflexivity|].
  split; vm_compute; reflexivity.
Qed.

(** C1 (amended): in the ETH/USD scenario the refresh at 3015 gives
    currentProfit 15, profitPct 0.5, peakProfit 15 and erosionUsed 0; the
    refresh at 3005 gives currentProfit 5, peakProfit 15 and erosionUsed 10;
    the peak is 0.5% of the cost basis 3000, below the 1% under which the
    check is skipped, so [checkErosionCap] with max-giveback 0.5 returns
    [false] and records no alert. *)
Theorem C1_erosion_scenario :
  (exists p1,
     getPosition eth_3015 eth = Some p1
     /\ currentProfit p1 = Fin 15
     /\ JS.same (profitPct p1) (Fin (1 # 2))
     /\ peakProfit p1 = Fin 15
     /\ erosionUsed p1 = Fin 0)
  /\ (exists p2,
        getPosition eth_3005 eth = Some p2
        /\ currentProfit p2 = Fin 5
        /\ peakProfit p2 = Fin 15
        /\ erosionUsed p2 = Fin 10
        /\ JS.same (totalCostOf p2) (Fin 3000)
        /\ JS.same (peakProfitPctOf p2) (Fin (1 # 2))
        /\ JS.same (erosionUsed p2 / peakProfit p2) (Fin (10 # 15)))
  /\ checkErosionCap 1 eth eth_3005 = (false, eth_3005).
Proof.
  split; [|split].
  - eexists. split; [vm_compute; reflexivity|]. vm_compute. tauto.
  - eexists. split; [vm_compute; reflexivity|]. vm_compute. tauto.
  - eapply checkErosionCap_small_peak; vm_compute; reflexivity.
Qed.

End ErosionScenario.

(* ------------------------------------------------------------------ *)
(** ** Persistence: which operations write the snapshot *)

Section Persistence.
Import Scenario.

Lemma logActivity_positions (e : ActivityFeedEntry) (st : t) :
  positions (logActivity e st) = positions st
  /\ closedPositions (logActivity e st) = closedPositions st
  /\ disk (logActivity e st) = disk st.
Proof.
  unfold logActivity.
  by destruct (maxActivityFeedSize st <? length (activityFeed st ++ [e]))%nat.
Qed.

(** C2: [updatePosition] never writes the snapshot: the file keeps what the
    last [addPosition], [addPyramidLevel] or [closePosition] wrote.  In the
    ETH/USD scenario, after the refresh at 3015 the position in memory has
    currentProfit 15 and peakProfit 15 while the persisted one still has 0
    and 0. *)
Theorem C2_refresh_is_not_persisted :
  (forall (pair : string) (price : JS.num) (st : t),
     disk (updatePosition pair price st) = disk st)
  /\ map (fun p => (currentProfit p, peakProfit p))
         (values (positions eth_3015)) = [(Fin 15, Fin 15)]
  /\ option_map (fun d => map (fun p => (currentProfit p, peakProfit p))
                              (snapOpen d))
                (disk eth_3015) = Some [(Fin 0, Fin 0)].
Proof.
  split; [|split].
  - intros pair price st. unfold updatePosition.
    by destruct (positions st !! pair).
  - vm_compute. reflexivity.
  - vm_compute. reflexivity.
Qed.

End Persistence.

(* ------------------------------------------------------------------ *)
(** ** Pyramid levels *)

Section Pyramid.
Import Scenario.

Lemma addPyramidLevel_accepted (now : Z) (pair : string)
    (level : PyramidLevel.Level) (entryPrice volume aiConfidence : JS.num)
    (st : t) (p : Position) :
  positions st !! pair = Some p ->
  (pyramidLevelsActivated p < 2)%nat ->
  existsb (fun l => PyramidLevel.Level_eqb (PyramidLevel.level l) level)
          (pyramidLevels p) = false ->
  fst (addPyramidLevel now pair level entryPrice volume aiConfidence st) = true
  /\ positions
       (snd (addPyramidLevel now pair level entryPrice volume aiConfidence st))
     !! pair
     = Some (set_pyramid
               (pyramidLevels p
                  ++ [new_level now level entryPrice volume aiConfidence])
               (totalVolume p + volume) (S (pyramidLevelsActivated p)) p).
Proof.
  intros Hp Hcount Hnew. unfold addPyramidLevel. rewrite Hp.
  destruct (Nat.leb_spec 2 (pyramidLevelsActivated p)) as [Hge|_]; [lia|].
  rewrite Hnew. simpl. split; [reflexivity|].
  match goal with
  | |- positions (logActivity ?e ?s) !! _ = _ =>
      rewrite (proj1 (logActivity_positions e s))
  end.
  simpl. by rewrite lookup_insert_eq.
Qed.

Lemma addPyramidLevel_duplicate (now : Z) (pair : string)
    (level : PyramidLevel.Level) (entryPrice volume aiConfidence : JS.num)
    (st : t) (p : Position) :
  positions st !! pair = Some p ->
  existsb (fun l => PyramidLevel.Level_eqb (PyramidLevel.level l) level)
          (pyramidLevels p) = true ->
  addPyramidLevel now pair level entryPrice volume aiConfidence st = (false, st).
Proof.
  intros Hp Hdup. unfold addPyramidLevel. rewrite Hp, Hdup.
  by destruct (2 <=? pyramidLevelsActivated p)%nat.
Qed.

(** C3 (as stated, refuted): on a position without pyramid levels,
    [addPyramidLevel] for level 2 returns [true] and appends the level. *)
Lemma C3_level2_before_level1_is_accepted :
  exists p p',
    getPosition uw_open uw = Some p
    /\ pyramidLevels p = []
    /\ fst (addPyramidLevel 1 uw PyramidLevel.L2 (Fin 108) (Fin 5) (Fin 90)
                            uw_open) = true
    /\ getPosition
         (snd (addPyramidLevel 1 uw PyramidLevel.L2 (Fin 108) (Fin 5) (Fin 90)
                               uw_open)) uw = Some p'
    /\ map PyramidLevel.level (pyramidLevels p') = [PyramidLevel.L2]
    /\ pyramidLevelsActivated p' = 1%nat.
Proof.
  do 2 eexists.
  split; [vm_compute; reflexivity|].
  split; [reflexivity|].
  split; [vm_compute; reflexivity|].
  split; [vm_compute; reflexivity|].
  split; reflexivity.
Qed.

(** C3 (amended): for any open position with no pyramid levels,
    [addPyramidLevel] for level 1 called twice returns [true] then [false],
    the second call changes nothing and the position holds the one level-1
    entry; [addPyramidLevel] for level 2 called before level 1 exists returns
    [true] and appends the level-2 entry: only the advisory predicate
    [isReadyForL2] answers [false] while no level is activated. *)
Theorem C3_pyramid_levels (now1 now2 : Z) (pair : string)
    (e1 v1 c1 e2 v2 c2 profit trigger : JS.num) (st : t) (p : Position) :
  positions st !! pair = Some p ->
  no_pyramid_levels p ->
  let first := addPyramidLevel now1 pair PyramidLevel.L1 e1 v1 c1 st in
  let second := addPyramidLevel now2 pair PyramidLevel.L1 e2 v2 c2 (snd first) in
  let other := addPyramidLevel now2 pair PyramidLevel.L2 e2 v2 c2 st in
  fst first = true
  /\ second = (false, snd first)
  /\ (exists p1,
        positions (snd first) !! pair = Some p1
        /\ pyramidLevels p1 = [new_level now1 PyramidLevel.L1 e1 v1 c1]
        /\ pyramidLevelsActivated p1 = 1%nat)
  /\ fst other = true
  /\ (exists p2,
        positions (snd other) !! pair = Some p2
        /\ pyramidLevels p2 = [new_level now2 PyramidLevel.L2 e2 v2 c2]
        /\ pyramidLevelsActivated p2 = 1%nat)
  /\ isReadyForL2 st pair profit trigger = false.
Proof.
  intros Hp [Hlevels Hcount]. cbv zeta.
  destruct (addPyramidLevel_accepted now1 pair PyramidLevel.L1 e1 v1 c1 st p Hp)
    as [Hr1 Hp1]; [lia | by rewrite Hlevels |].
  destruct (addPyramidLevel_accepted now2 pair PyramidLevel.L2 e2 v2 c2 st p Hp)
    as [Hr2 Hp2]; [lia | by rewrite Hlevels |].
  rewrite Hlevels, Hcount in Hp1, Hp2. simpl in Hp1, Hp2.
  split; [exact Hr1|].
  split; [by eapply addPyramidLevel_duplicate; [exact Hp1|]|].
  split; [by eexists; split; [exact Hp1|]|].
  split; [exact Hr2|].
  split; [by eexists; split; [exact Hp2|]|].
  unfold isReadyForL2. by rewrite Hp, Hcount.
Qed.

Lemma C3_pyramid_levels_witness :
  fst (addPyramidLevel 1 uw PyramidLevel.L1 (Fin 105) (Fin 3) (Fin 90) uw_open)
  = true.
Proof.
  refine (proj1 (C3_pyramid_levels 1 2 uw (Fin 105) (Fin 3) (Fin 90) (Fin 108)
                   (Fin 5) (Fin 92) (Fin (8 # 100)) (Fin (8 # 100)) uw_open
                   _ _ _)).
  - vm_compute. reflexivity.
  - split; reflexivity.
Defined.

End Pyramid.

(* ------------------------------------------------------------------ *)
(** ** Refresh: peak and erosion *)

Section Refresh.

Lemma leb_refl (x : JS.num) : JS.isNaN x = false -> (x <=? x) = true.
Proof.
  destruct x; simpl; try done. intros _. apply Qle_bool_iff, Qle_refl.
Qed.

Lemma ltb_leb (x y : JS.num) : (x <? y) = true -> (x <=? y) = true.
Proof.
  destruct x, y; simpl; try done.
  intros H. apply Qltb_true in H. apply Qle_bool_iff. by apply Qlt_le_weak.
Qed.

Lemma leb_trans (x y z : JS.num) :
  (x <=? y) = true -> (y <=? z) = true -> (x <=? z) = true.
Proof.
  destruct x, y, z; simpl; try done.
  intros H1 H2. apply Qle_bool_iff in H1, H2. apply Qle_bool_iff.
  by eapply Qle_trans.
Qed.

(** Below the peak, the erosion [peak - current] is not negative. *)
Lemma erosion_nonneg (peak : JS.num) (cur : Q) :
  JS.isNaN peak = false ->
  (Fin cur >? peak) = false ->
  (Fin 0 <=? peak - Fin cur) = true.
Proof.
  destruct peak; simpl; try done.
  intros _ H. apply Qltb_false in H. apply Qle_bool_iff. lra.
Qed.

(** Whatever the two numbers are, a difference [peak - cur] taken when [cur]
    is not above [peak] is never negative: it is [>= 0] or [NaN]. *)
Lemma erosion_not_negative (peak cur : JS.num) :
  (cur >? peak) = false -> (peak - cur <? Fin 0) = false.
Proof.
  destruct peak, cur; simpl; try done.
  intros H. apply Qltb_false in H. apply Qltb_false. lra.
Qed.

Lemma ltb_asym (x y : JS.num) : (x <? y) = true -> (y <? x) = false.
Proof.
  destruct x, y; simpl; try done.
  intros H. apply Qltb_true in H. apply Qltb_false. lra.
Qed.

Lemma ltb_irrefl (x : JS.num) : (x <? x) = false.
Proof. destruct x; simpl; try done. apply Qltb_false. lra. Qed.

Lemma ltb_not_nan (x y : JS.num) : (x <? y) = true -> JS.isNaN y = false.
Proof. by destruct x, y. Qed.

Lemma leb_not_ltb (x y : JS.num) : (x <=? y) = true -> (y <? x) = false.
Proof.
  destruct x, y; simpl; try done.
  intros H. apply Qle_bool_iff in H. by apply Qltb_false.
Qed.

Lemma sub_nan (x : JS.num) : x - JS.NaN = JS.NaN.
Proof. by destruct x. Qed.

(** The two ways [updatePosition] can leave a position, at any price: a new
    peak, or the old peak with the erosion below it. *)
Lemma refreshed_cases (p : Position) (price : JS.num) :
  let p' := refreshed p price in
  ((currentProfit p' >? peakProfit p) = true
   /\ peakProfit p' = currentProfit p'
   /\ erosionUsed p' = Fin 0)
  \/ ((currentProfit p' >? peakProfit p) = false
      /\ peakProfit p' = peakProfit p
      /\ erosionUsed p' = peakProfit p - currentProfit p').
Proof.
  cbv zeta. unfold refreshed.
  destruct (fold_left _ _ _) as [totalProfit totalCost].
  destruct (totalProfit >? peakProfit p) eqn:E; [left|right]; by simpl.
Qed.

(** One refresh, at any price. *)
Lemma refresh_step (p : Position) (price : JS.num) :
  let p' := refreshed p price in
  (peakProfit p' <? peakProfit p) = false
  /\ JS.isNaN (peakProfit p') = JS.isNaN (peakProfit p)
  /\ (JS.isNaN (peakProfit p) = false ->
      (peakProfit p <=? peakProfit p') = true)
  /\ ((currentProfit p' >? peakProfit p) = true -> erosionUsed p' = Fin 0)
  /\ (erosionUsed p' <? Fin 0) = false
  /\ (JS.isNaN (peakProfit p) = false ->
      JS.isFinite (currentProfit p') = true ->
      (Fin 0 <=? erosionUsed p') = true)
  /\ (JS.isNaN (currentProfit p') = true ->
      JS.isNaN (erosionUsed p') = true).
Proof.
  cbv zeta.
  destruct (refreshed_cases p price) as [(Hgt & -> & ->)|(Hle & -> & ->)].
  - unfold JS.gtb in Hgt.
    split; [by apply ltb_asym|].
    split.
    { rewrite (ltb_not_nan _ _ Hgt).
      by destruct (peakProfit p), (currentProfit (refreshed p price)). }
    split; [intros _; by apply ltb_leb|].
    split; [done|]. split; [reflexivity|]. split; [done|].
    intros Hnan. rewrite (ltb_not_nan _ _ Hgt) in Hnan. discriminate.
  - split; [apply ltb_irrefl|]. split; [reflexivity|].
    split; [apply leb_refl|].
    split; [congruence|].
    split; [by apply erosion_not_negative|].
    split.
    + intros Hpeak Hfin. apply isFinite_inv in Hfin as [c Hc].
      rewrite Hc in *. by apply erosion_nonneg.
    + intros Hnan. destruct (currentProfit (refreshed p price)); try done.
      by rewrite sub_nan.
Qed.

Lemma updatePosition_lookup (pair : string) (price : JS.num) (st : t)
    (p : Position) :
  positions st !! pair = Some p ->
  positions (updatePosition pair price st) !! pair = Some (refreshed p price).
Proof.
  intros Hp. unfold updatePosition. rewrite Hp. simpl.
  by rewrite lookup_insert_eq.
Qed.

(** Any run of refreshes, at any prices, keeps the position and ends with a
    peak that is not below the one it started from: at least as high when
    the first peak is a number, and [NaN] like the first one otherwise. *)
Lemma refreshes_invariant (pair : string) (prices : list JS.num) :
  forall (st : t) (p : Position),
    positions st !! pair = Some p ->
    exists q,
      positions (refreshes pair prices st) !! pair = Some q
      /\ JS.isNaN (peakProfit q) = JS.isNaN (peakProfit p)
      /\ (peakProfit q <? peakProfit p) = false
      /\ (JS.isNaN (peakProfit p) = false ->
          (peakProfit p <=? peakProfit q) = true).
Proof.
  induction prices as [|price prices IH]; intros st p Hp.
  - exists p. split; [done|]. split; [done|].
    split; [apply ltb_irrefl|apply leb_refl].
  - destruct (refresh_step p price) as (_ & Hnan & Hmono & _).
    destruct (IH (updatePosition pair price st) (refreshed p price)
                 (updatePosition_lookup pair price st p Hp))
      as (q & Hq & Hnq & _ & Hle).
    exists q. split; [done|]. rewrite Hnan in Hnq, Hle.
    split; [done|].
    assert (Hall : JS.isNaN (peakProfit p) = false ->
                   (peakProfit p <=? peakProfit q) = true).
    { intros Hpeak. eapply leb_trans; [by apply Hmono|by apply Hle]. }
    split; [|exact Hall].
    destruct (JS.isNaN (peakProfit p)) eqn:E.
    + by destruct (peakProfit q), (peakProfit p).
    + by apply leb_not_ltb, Hall.
Qed.

(** C4 (as stated, refuted): with arbitrary prices erosionUsed is not always
    [>= 0].  After one refresh at the price [NaN] the position opened at
    3000 has currentProfit [NaN] and erosionUsed [0 - NaN = NaN]; after two
    refreshes at the price [+Infinity] it has currentProfit and peakProfit
    [+Infinity] and erosionUsed [Infinity - Infinity = NaN]. *)
Lemma C4_erosion_is_nan_after_a_nan_price :
  (exists after,
     positions (refreshes Scenario.eth [JS.NaN] Scenario.eth_open)
       !! Scenario.eth = Some after
     /\ erosionUsed after = JS.NaN
     /\ (Fin 0 <=? erosionUsed after) = false)
  /\ (exists after,
        positions (refreshes Scenario.eth [JS.PInf; JS.PInf] Scenario.eth_open)
          !! Scenario.eth = Some after
        /\ peakProfit after = JS.PInf
        /\ erosionUsed after = JS.NaN
        /\ (Fin 0 <=? erosionUsed after) = false).
Proof.
  split; eexists; (split; [vm_compute; reflexivity|]);
    repeat split; vm_compute; reflexivity.
Qed.

(** C4 (amended): for an open position and any sequence of refreshes at
    arbitrary prices, every refresh leaves peakProfit not below what it was
    before and at the start (at least as high when the first peakProfit is
    a number), leaves erosionUsed exactly 0 when its currentProfit strictly
    exceeds the prior peakProfit, and never leaves a negative erosionUsed;
    erosionUsed is [>= 0] after every refresh that leaves a finite
    currentProfit when the first peakProfit is a number, and it is [NaN]
    after a refresh that leaves a [NaN] currentProfit. *)
Theorem C4_peak_monotone_erosion_nonneg (pair : string) (prices : list JS.num)
    (st : t) (p : Position) :
  positions st !! pair = Some p ->
  forall (n : nat) (price : JS.num),
    prices !! n = Some price ->
    exists before after,
      positions (refreshes pair (take n prices) st) !! pair = Some before
      /\ positions (refreshes pair (take (S n) prices) st) !! pair = Some after
      /\ after = refreshed before price
      /\ (peakProfit before <? peakProfit p) = false
      /\ (peakProfit after <? peakProfit before) = false
      /\ ((currentProfit after >? peakProfit before) = true ->
          erosionUsed after = Fin 0)
      /\ (erosionUsed after <? Fin 0) = false
      /\ (JS.isNaN (currentProfit after) = true ->
          JS.isNaN (erosionUsed after) = true)
      /\ (JS.isNaN (peakProfit p) = false ->
          (peakProfit p <=? peakProfit before) = true
          /\ (peakProfit before <=? peakProfit after) = true
          /\ (JS.isFinite (currentProfit after) = true ->
              (Fin 0 <=? erosionUsed after) = true)).
Proof.
  intros Hp n price Hn.
  destruct (refreshes_invariant pair (take n prices) st p Hp)
    as (before & Hbefore & Hnan & Hnot & Hle).
  destruct (refresh_step before price)
    as (Hstep & _ & Hmono & Hreset & Hneg & Hero & Hnanero).
  exists before, (refreshed before price).
  split; [exact Hbefore|].
  split.
  { rewrite (take_S_r _ _ _ Hn). unfold refreshes. rewrite fold_left_app. simpl.
    by apply updatePosition_lookup. }
  split; [reflexivity|].
  split; [exact Hnot|].
  split; [exact Hstep|].
  split; [exact Hreset|].
  split; [exact Hneg|].
  split; [exact Hnanero|].
  intros Hpeak. rewrite <- Hnan in Hpeak.
  split; [apply Hle; by rewrite <- Hnan|].
  split; [by apply Hmono|by apply Hero].
Qed.

Lemma C4_peak_monotone_erosion_nonneg_witness :
  exists before after,
    positions (refreshes Scenario.eth (take 1 [Fin 3015; Fin 3005])
                         Scenario.eth_open) !! Scenario.eth = Some before
    /\ positions (refreshes Scenario.eth (take 2 [Fin 3015; Fin 3005])
                            Scenario.eth_open) !! Scenario.eth = Some after
    /\ after = refreshed before (Fin 3005)
    /\ (peakProfit before <? Fin 0) = false
    /\ (peakProfit after <? peakProfit before) = false
    /\ ((currentProfit after >? peakProfit before) = true ->
        erosionUsed after = Fin 0)
    /\ (erosionUsed after <? Fin 0) = false
    /\ (JS.isNaN (currentProfit after) = true ->
        JS.isNaN (erosionUsed after) = true)
    /\ (JS.isNaN (Fin 0) = false ->
        (Fin 0 <=? peakProfit before) = true
        /\ (peakProfit before <=? peakProfit after) = true
        /\ (JS.isFinite (currentProfit after) = true ->
            (Fin 0 <=? erosionUsed after) = true)).
Proof.
  refine (C4_peak_monotone_erosion_nonneg Scenario.eth [Fin 3015; Fin 3005]
            Scenario.eth_open
            (mkPosition Scenario.eth (Fin 3000) (Fin 1) 0 (Fin 2900) (Fin 3200)
               [] (Fin 1) 0 (Fin 0) (Fin 0) (Fin 0) (Fin (8 # 1000)) (Fin 0)
               [] (Fin 0) moderate open None None None)
            _ 1%nat (Fin 3005) _).
  - vm_compute. reflexivity.
  - reflexivity.
Defined.

End Refresh.

(* ------------------------------------------------------------------ *)
(** ** Underwater exit *)

Section Underwater.
Import Scenario.

(** On numbers (no [NaN]) the order is total: [x < y] is the negation of
    [y <= x]. *)
Lemma ltb_negb_leb (x y : JS.num) :
  JS.isNaN x = false -> JS.isNaN y = false -> (x <? y) = negb (y <=? x).
Proof. destruct x, y; simpl; try done. Qed.

Lemma leb_negb_ltb (x y : JS.num) :
  JS.isNaN x = false -> JS.isNaN y = false -> (x <=? y) = negb (y <? x).
Proof.
  intros Hx Hy. rewrite (ltb_negb_leb y x Hy Hx). by rewrite negb_involutive.
Qed.






End Underwater.

(* ------------------------------------------------------------------ *)
(** ** Profitable collapse *)

Section Collapse.
Import Scenario.

Lemma level_costs_finite (levels : list PyramidLevel.t) (a : Q) :
  Forall finite_level levels ->
  exists a',
    fold_left
      (fun sum lvl => sum + PyramidLevel.entryPrice lvl * PyramidLevel.volume lvl)
      levels (Fin a) = Fin a'.
Proof.
  intros H. revert a. induction H as [|l levels [He Hv] _ IH]; intros a.
  - by exists a.
  - apply isFinite_inv in He as [e He]. apply isFinite_inv in Hv as [v Hv].
    simpl. rewrite He, Hv. simpl. apply IH.
Qed.

Lemma totalCostOf_finite (p : Position) :
  finite_basis p -> exists c, totalCostOf p = Fin c.
Proof.
  intros (He & Hv & Hl).
  apply isFinite_inv in He as [e He]. apply isFinite_inv in Hv as [v Hv].
  destruct (level_costs_finite (pyramidLevels p) 0 Hl) as [s Hs].
  unfold totalCostOf. rewrite He, Hv, Hs. by eexists.
Qed.

(** With a positive cost [c], the peak percentage [k / c * 100] is below 0.5
    exactly when [k] is below 0.5% of [c]. *)
Lemma half_percent_of_cost (k c : Q) :
  (0 < c)%Q ->
  JS.Qltb (k / c * 100) (1 # 2) = negb (Qle_bool ((5 # 1000) * c) k).
Proof.
  intros Hc.
  assert (Hk : (c * (k / c) == k)%Q) by (apply Qmult_div_r; lra).
  set (x := (k / c)%Q) in *.
  destruct (Qle_bool ((5 # 1000) * c) k) eqn:E; simpl.
  - apply Qle_bool_iff in E. apply Qltb_false. nra.
  - apply Qltb_true. destruct (Qlt_le_dec (x * 100) (1 # 2)) as [|Hge]; [done|].
    assert (Hle : ((5 # 1000) * c <= k)%Q) by nra.
    apply Qle_bool_iff in Hle. congruence.
Qed.

Lemma checkProfitableCollapse_iff (now : Z) (pair : string) (st : t)
    (p : Position) :
  positions st !! pair = Some p ->
  finite_basis p ->
  JS.isFinite (peakProfit p) = true ->
  JS.isNaN (currentProfit p) = false ->
  fst (checkProfitableCollapse now pair st) = true
  <-> (totalCostOf p >? Fin 0) = true
      /\ (Fin (5 # 1000) * totalCostOf p <=? peakProfit p) = true
      /\ (currentProfit p <? Fin 0) = true.
Proof.
  intros Hp Hb Hpeak Hcur.
  unfold checkProfitableCollapse. rewrite Hp. unfold peakProfitPctOf.
  destruct (totalCostOf_finite p Hb) as [c ->].
  apply isFinite_inv in Hpeak as [k ->].
  unfold JS.geb. rewrite (leb_negb_ltb (Fin 0) (currentProfit p)) by done.
  unfold JS.gtb. simpl.
  destruct (JS.Qltb 0 c) eqn:Hc; simpl.
  - apply Qltb_true in Hc.
    replace (Qeq_bool c 0) with false
      by (symmetry; destruct (Qeq_bool c 0) eqn:E; [|done];
          apply Qeq_bool_iff in E; lra).
    simpl. rewrite (half_percent_of_cost k c Hc).
    destruct (Qle_bool ((5 # 1000) * c) k), (currentProfit p <? Fin 0);
      simpl; intuition congruence.
  - intuition congruence.
Qed.

(** C6 (as stated, refuted): a position whose peak was 1% of the cost basis
    and whose currentProfit is back at exactly 0 (breakeven): the peak is at
    least 0.5% of the cost basis and currentProfit <= 0, and
    [checkProfitableCollapse] returns [false]. *)
Lemma C6_breakeven_is_not_a_collapse :
  exists p,
    getPosition uw_breakeven uw = Some p
    /\ (Fin (5 # 1000) * totalCostOf p <=? peakProfit p) = true
    /\ (currentProfit p <=? Fin 0) = true
    /\ fst (checkProfitableCollapse 1 uw uw_breakeven) = false.
Proof.
  eexists. split; [vm_compute; reflexivity|].
  repeat split; vm_compute; reflexivity.
Qed.

(** C6 (amended): [checkProfitableCollapse] returns [true] exactly when the
    pair has an open position whose total cost basis across all levels is
    positive, whose peak percentage [peakProfit / totalCost * 100] is not
    below 0.5 and whose currentProfit is not [>= 0], that is strictly
    negative or [NaN]; otherwise it returns [false].  When the peak
    percentage and currentProfit are numbers, that is: cost basis positive,
    peak percentage at least 0.5 and currentProfit strictly below 0.  At
    currentProfit exactly 0 (breakeven) it returns [false]. *)
Theorem C6_profitable_collapse (now : Z) (pair : string) (st : t) :
  (fst (checkProfitableCollapse now pair st) = true
   <-> exists p,
         positions st !! pair = Some p
         /\ (totalCostOf p >? Fin 0) = true
         /\ (peakProfit p / totalCostOf p * Fin 100 <? Fin (1 # 2)) = false
         /\ (currentProfit p >=? Fin 0) = false)
  /\ (forall p,
        positions st !! pair = Some p ->
        JS.isNaN (peakProfit p / totalCostOf p * Fin 100) = false ->
        JS.isNaN (currentProfit p) = false ->
        fst (checkProfitableCollapse now pair st)
        = (totalCostOf p >? Fin 0)
          && (Fin (1 # 2) <=? peakProfit p / totalCostOf p * Fin 100)
          && (currentProfit p <? Fin 0))
  /\ (forall p,
        positions st !! pair = Some p ->
        currentProfit p = Fin 0 ->
        fst (checkProfitableCollapse now pair st) = false).
Proof.
  assert (Hshape : forall p,
             positions st !! pair = Some p ->
             fst (checkProfitableCollapse now pair st)
             = (totalCostOf p >? Fin 0)
               && negb (peakProfit p / totalCostOf p * Fin 100 <? Fin (1 # 2))
               && negb (currentProfit p >=? Fin 0)).
  { intros p Hp. unfold checkProfitableCollapse. rewrite Hp.
    unfold peakProfitPctOf. cbv zeta.
    destruct (totalCostOf p >? Fin 0); cbn [andb].
    - destruct (peakProfit p / totalCostOf p * Fin 100 <? Fin (1 # 2));
        [reflexivity|].
      by destruct (currentProfit p >=? Fin 0).
    - reflexivity. }
  split; [|split].
  - split.
    + intros H. destruct (positions st !! pair) as [p|] eqn:Hp.
      * exists p. rewrite (Hshape p eq_refl) in H.
        split; [reflexivity|].
        destruct (totalCostOf p >? Fin 0); [|discriminate].
        destruct (peakProfit p / totalCostOf p * Fin 100 <? Fin (1 # 2));
          [discriminate|].
        by destruct (currentProfit p >=? Fin 0).
      * unfold checkProfitableCollapse in H. rewrite Hp in H. discriminate.
    + intros (p & Hp & Hcost & Hpct & Hcur).
      by rewrite (Hshape p Hp), Hcost, Hpct, Hcur.
  - intros p Hp Hpct Hcur. rewrite (Hshape p Hp).
    unfold JS.geb.
    rewrite (leb_negb_ltb (Fin 0) (currentProfit p)) by done.
    rewrite (ltb_negb_leb (peakProfit p / totalCostOf p * Fin 100)
                          (Fin (1 # 2))) by done.
    by rewrite !negb_involutive.
  - intros p Hp Hcur. rewrite (Hshape p Hp), Hcur.
    by rewrite !andb_false_r.
Qed.

Lemma C6_profitable_collapse_witness :
  fst (checkProfitableCollapse 1 uw (updatePosition uw (Fin 99) uw_101)) = true.
Proof.
  apply (proj2 (proj1 (C6_profitable_collapse 1 uw
                         (updatePosition uw (Fin 99) uw_101)))).
  eexists. split; [vm_compute; reflexivity|].
  repeat split; vm_compute; reflexivity.
Defined.

End Collapse.

(* ------------------------------------------------------------------ *)
(** ** Closing a position *)

Section Close.
Import Scenario.

(** C9: [closePosition] on an open pair computes profitPct and currentProfit
    from the exit price and the L0 entryPrice and volume only (two positions
    that agree on these get the same figures, whatever their pyramid levels),
    stamps exitPrice, exitTime and exitReason, sets the status to closed,
    removes the pair from the open set, appends the closed position once at
    the end of the closed history (which grows by exactly one entry, and so
    does the number of its entries that match any test the closed position
    passes), and writes the snapshot. *)
Theorem C9_close_position (now : Z) (pair : string) (exitPrice : JS.num)
    (exitReason : string) (st : t) (p : Position) :
  positions st !! pair = Some p ->
  let st' := closePosition now pair exitPrice exitReason st in
  let p' := exited now p exitPrice exitReason in
  positions st' !! pair = None
  /\ closedPositions st' = closedPositions st ++ [p']
  /\ length (closedPositions st') = S (length (closedPositions st))
  /\ (forall f : Position -> bool,
        f p' = true ->
        length (List.filter f (closedPositions st'))
        = S (length (List.filter f (closedPositions st))))
  /\ status p' = closed
  /\ PositionTracker.exitPrice p' = Some exitPrice
  /\ exitTime p' = Some now
  /\ PositionTracker.exitReason p' = Some exitReason
  /\ profitPct p' = (exitPrice - entryPrice p) / entryPrice p * Fin 100
  /\ currentProfit p'
     = volume p * ((exitPrice - entryPrice p) / entryPrice p) * entryPrice p
  /\ (forall q : Position,
        entryPrice q = entryPrice p ->
        volume q = volume p ->
        profitPct (exited now q exitPrice exitReason) = profitPct p'
        /\ currentProfit (exited now q exitPrice exitReason) = currentProfit p')
  /\ pyramidLevels p' = pyramidLevels p
  /\ disk st' = Some (snapshot st' now).
Proof.
  intros Hp. cbv zeta. unfold closePosition. rewrite Hp.
  match goal with
  | |- context [logActivity ?e st] =>
      destruct (logActivity_positions e st) as (Hpos & Hclosed & _);
      set (logged := logActivity e st) in *
  end.
  simpl. rewrite Hpos, Hclosed.
  split; [by rewrite lookup_delete_eq|].
  split; [reflexivity|].
  split; [rewrite length_app; simpl; lia|].
  split.
  { intros f Hf. rewrite List.filter_app, length_app. simpl. rewrite Hf.
    simpl. lia. }
  do 6 (split; [reflexivity|]).
  split; [|by split].
  intros q He Hv. unfold exited. simpl. by rewrite He, Hv.
Qed.

Lemma C9_close_position_witness :
  positions (closePosition 9 uw (Fin 99) "Underwater Timeout" uw_991) !! uw
  = None.
Proof.
  refine (proj1 (C9_close_position 9 uw (Fin 99) "Underwater Timeout" uw_991
                   _ _)).
  vm_compute. reflexivity.
Defined.

End Close.

(* ------------------------------------------------------------------ *)
(** ** Performance statistics *)

Section Performance.

Lemma perf_loop_snoc (cs : list Position) (p : Position) :
  perf_loop (cs ++ [p]) = perf_step (perf_loop cs) p.
Proof. unfold perf_loop. by rewrite fold_left_app. Qed.

(** Adding nothing leaves a number the same. *)
Lemma add_zero_same (x : JS.num) : JS.same (x + Fin 0) x.
Proof. destruct x; simpl; try done. apply Qplus_0_r. Qed.

Lemma perf_loop_counts (cs : list Position) :
  loopWinningTrades (perf_loop cs) = length (List.filter is_win cs)
  /\ loopLosingTrades (perf_loop cs)
     = length (List.filter (fun p => negb (is_win p)) cs).
Proof.
  induction cs as [|p cs IH] using rev_ind; [done|].
  rewrite perf_loop_snoc, !List.filter_app, !length_app.
  destruct IH as [IHw IHl]. unfold perf_step.
  cbn [loopWinningTrades loopLosingTrades List.filter].
  change (JS.or_zero (currentProfit p) >? Fin 0) with (is_win p).
  destruct (is_win p); simpl; lia.
Qed.

Lemma stats_counters (st : t) :
  winningTrades (getPerformanceStats st)
  = loopWinningTrades (perf_loop (closedPositions st))
  /\ losingTrades (getPerformanceStats st)
     = loopLosingTrades (perf_loop (closedPositions st))
  /\ totalProfit (getPerformanceStats st)
     = loopTotalProfit (perf_loop (closedPositions st))
  /\ totalLoss (getPerformanceStats st)
     = loopTotalLoss (perf_loop (closedPositions st)).
Proof.
  unfold getPerformanceStats.
  by destruct (closedPositions st) as [|c cs].
Qed.

Lemma or_zero_of_zero (x : JS.num) :
  (x === Fin 0) = true -> JS.or_zero x = Fin 0.
Proof.
  destruct x; simpl; try done. intros H. unfold JS.or_zero. simpl.
  by rewrite H.
Qed.

(** C10: a closed position whose recorded profit is exactly 0 is not a win:
    once it is in the closed history, [getPerformanceStats] counts one more
    losing trade, the same winning trades, the same totalProfit and the same
    totalLoss (it adds 0); winningTrades is the number of closed positions
    with a strictly positive profit, losingTrades the number of all others,
    and winRate is that number of wins over the number of trades, times 100. *)
Theorem C10_zero_profit_counts_as_loss (st : t) (p : Position) :
  (currentProfit p === Fin 0) = true ->
  let st' := with_closedPositions (closedPositions st ++ [p]) st in
  is_win p = false
  /\ losingTrades (getPerformanceStats st')
     = S (losingTrades (getPerformanceStats st))
  /\ winningTrades (getPerformanceStats st')
     = winningTrades (getPerformanceStats st)
  /\ totalProfit (getPerformanceStats st')
     = totalProfit (getPerformanceStats st)
  /\ JS.same (totalLoss (getPerformanceStats st'))
             (totalLoss (getPerformanceStats st))
  /\ winningTrades (getPerformanceStats st')
     = length (List.filter is_win (closedPositions st'))
  /\ losingTrades (getPerformanceStats st')
     = length (List.filter (fun c => negb (is_win c)) (closedPositions st'))
  /\ winRate (getPerformanceStats st')
     = JS.of_nat (length (List.filter is_win (closedPositions st')))
       / JS.of_nat (length (closedPositions st')) * Fin 100.
Proof.
  intros Hzero. cbv zeta.
  set (st' := with_closedPositions (closedPositions st ++ [p]) st).
  pose proof (or_zero_of_zero _ Hzero) as Hor.
  assert (Hwin : is_win p = false) by (unfold is_win; by rewrite Hor).
  destruct (stats_counters st) as (Hw & Hl & Htp & Htl).
  destruct (stats_counters st') as (Hw' & Hl' & Htp' & Htl').
  destruct (perf_loop_counts (closedPositions st')) as [Hcw Hcl].
  assert (Hstep : perf_loop (closedPositions st')
                  = perf_step (perf_loop (closedPositions st)) p)
    by apply perf_loop_snoc.
  assert (Hfields :
            loopLosingTrades (perf_loop (closedPositions st'))
            = S (loopLosingTrades (perf_loop (closedPositions st)))
            /\ loopWinningTrades (perf_loop (closedPositions st'))
               = loopWinningTrades (perf_loop (closedPositions st))
            /\ loopTotalProfit (perf_loop (closedPositions st'))
               = loopTotalProfit (perf_loop (closedPositions st))
            /\ loopTotalLoss (perf_loop (closedPositions st'))
               = loopTotalLoss (perf_loop (closedPositions st)) + Fin 0).
  { rewrite Hstep. unfold perf_step. rewrite Hor. by repeat split. }
  destruct Hfields as (Fl & Fw & Ftp & Ftl).
  split; [exact Hwin|].
  split; [by rewrite Hl', Hl|].
  split; [by rewrite Hw', Hw|].
  split; [by rewrite Htp', Htp|].
  split; [rewrite Htl', Htl, Ftl; apply add_zero_same|].
  split; [by rewrite Hw'|].
  split; [by rewrite Hl'|].
  unfold getPerformanceStats.
  assert (Hlen : length (closedPositions st')
                 = S (length (closedPositions st)))
    by (subst st'; cbn [with_closedPositions closedPositions];
        rewrite length_app; simpl; lia).
  rewrite Hlen. cbn [Nat.eqb Nat.ltb Nat.leb winRate]. by rewrite Hcw.
Qed.

Lemma C10_zero_profit_counts_as_loss_witness :
  losingTrades
    (getPerformanceStats
       (closePosition 9 Scenario.uw (Fin 100) "Breakeven" Scenario.uw_breakeven))
  = 1%nat.
Proof.
  refine (proj1 (proj2 (C10_zero_profit_counts_as_loss Scenario.uw_breakeven
                          (exited 9
                             (refreshed
                                (refreshed
                                   (mkPosition Scenario.uw (Fin 100) (Fin 10) 0
                                      (Fin 95) (Fin 110) [] (Fin 10) 0 (Fin 0)
                                      (Fin 0) (Fin 0) (Fin (8 # 1000)) (Fin 0)
                                      [] (Fin 0) moderate open None None None)
                                   (Fin 101))
                                (Fin 100))
                             (Fin 100) "Breakeven")
                          _))).
  vm_compute. reflexivity.
Defined.

End Performance.

(* ------------------------------------------------------------------ *)
(** ** RSI *)

Section RSI.
Import IndicatorCalculator.

(** A loop invariant for [fold_left]: it holds at the end when every round
    over an element of the list keeps it. *)
Lemma fold_left_invariant {A B : Type} (P : A -> Prop) (R : B -> Prop)
    (f : A -> B -> A) (l : list B) (a : A) :
  Forall R l ->
  (forall a b, P a -> R b -> P (f a b)) ->
  P a ->
  P (fold_left f l a).
Proof.
  intros Hl Hstep. revert a.
  induction Hl as [|b l Hb _ IH]; intros a Ha; simpl; [done|].
  apply IH. by apply Hstep.
Qed.

Lemma seq_bounds (start len : nat) :
  Forall (fun i => (start <= i < start + len)%nat) (seq start len).
Proof.
  apply List.Forall_forall. intros i Hi. apply in_seq in Hi. lia.
Qed.

Lemma rsi_deltas_length (closes : list JS.num) :
  length (rsi_deltas closes) = (length closes - 1)%nat.
Proof. unfold rsi_deltas. by rewrite length_map, length_seq. Qed.

Lemma of_nat_positive (n : nat) :
  (0 < n)%nat -> (1 <= inject_Z (Z.of_nat n))%Q.
Proof. intros H. unfold Qle. simpl. lia. Qed.

Lemma div_by_positive (a b : Q) :
  (0 < b)%Q -> Fin a / Fin b = Fin (a / b).
Proof.
  intros Hb. simpl.
  destruct (Qeq_bool b 0) eqn:E; [|reflexivity].
  apply Qeq_bool_iff in E. lra.
Qed.

Lemma div_nonneg (a b : Q) : (0 <= a)%Q -> (0 < b)%Q -> (0 <= a / b)%Q.
Proof.
  intros Ha Hb. apply Qle_shift_div_l; [done|]. lra.
Qed.

(** The final clamp [Math.min(100, Math.max(0, rsi))] of a finite value. *)
Lemma clamp_0_100 (r : Q) :
  exists q, JS.min (Fin 100) (JS.max (Fin 0) (Fin r)) = Fin q
            /\ (0 <= q <= 100)%Q.
Proof.
  unfold JS.max. simpl.
  destruct (JS.Qltb 0 r) eqn:E0; unfold JS.min; simpl.
  - apply Qltb_true in E0.
    destruct (JS.Qltb r 100) eqn:E1.
    + apply Qltb_true in E1. exists r. split; [done|]. lra.
    + exists 100%Q. split; [done|]. lra.
  - exists 0%Q. split; [done|]. lra.
Qed.

(** The clamp [Math.min(100, Math.max(0, x))] of [calculateRSI]: a number
    gives a value between 0 and 100, [NaN] gives [NaN]. *)
Lemma rsi_clamp (x : JS.num) :
  (JS.isNaN x = true /\ JS.min (Fin 100) (JS.max (Fin 0) x) = JS.NaN)
  \/ (JS.isNaN x = false
      /\ exists q, JS.min (Fin 100) (JS.max (Fin 0) x) = Fin q
                   /\ (0 <= q <= 100)%Q).
Proof.
  destruct x as [r| | |].
  - right. split; [done|]. apply clamp_0_100.
  - right. split; [done|]. exists 100%Q. split; [reflexivity|]. lra.
  - right. split; [done|]. exists 0%Q. split; [reflexivity|]. lra.
  - left. by split.
Qed.

(** With a window of 0 both averages start as [0 / 0 = NaN] and stay so. *)
Lemma rsi_averages_period_0 (closes : list JS.num) :
  rsi_averages closes 0 = (JS.NaN, JS.NaN).
Proof.
  unfold rsi_averages. cbv zeta. cbn [rsi_seed seq fold_left].
  change (Fin 0 / JS.of_nat 0) with JS.NaN.
  apply (fold_left_invariant (fun acc => acc = (JS.NaN, JS.NaN))
                             (fun _ => True)).
  - apply List.Forall_forall. done.
  - intros acc i -> _. reflexivity.
  - reflexivity.
Qed.

(** C8: [calculateRSI] can return [NaN], which is not within [0,100]: the
    clamp [Math.min(100, Math.max(0, rsi))] lets [NaN] through (there is no
    [isNaN] test as in [calculateADX]).  With a window of 0 every non-empty
    array of closes gives [NaN], the finite closes [1, 2] among them; and
    for any window, whenever the ratio [avgGain / avgLoss] of the smoothed
    averages is [NaN] (as for two infinite averages), [NaN] is returned. *)
Theorem C8_rsi_nan_is_not_clamped :
  calculateRSI [Fin 1; Fin 2] 0 = JS.NaN
  /\ (forall closes : list JS.num,
        (0 < length closes)%nat -> calculateRSI closes 0 = JS.NaN)
  /\ (forall (closes : list JS.num) (period : nat),
        (period + 1 <= length closes)%nat ->
        (snd (rsi_averages closes period) === Fin 0) = false ->
        JS.isNaN (fst (rsi_averages closes period)
                  / snd (rsi_averages closes period)) = true ->
        calculateRSI closes period = JS.NaN).
Proof.
  assert (Hzero : forall closes : list JS.num,
             (0 < length closes)%nat -> calculateRSI closes 0 = JS.NaN).
  { intros closes Hlen. unfold calculateRSI.
    destruct (Nat.ltb_spec (length closes) (0 + 1)); [lia|].
    by rewrite rsi_averages_period_0. }
  split; [apply Hzero; simpl; lia|]. split; [exact Hzero|].
  intros closes period Hlong Hloss Hnan. unfold calculateRSI.
  destruct (Nat.ltb_spec (length closes) (period + 1)); [lia|].
  destruct (rsi_averages closes period) as [avgGain avgLoss].
  cbn [fst snd] in Hloss, Hnan. rewrite Hloss.
  by destruct (avgGain / avgLoss).
Qed.

(** X26: what [calculateRSI] does guarantee, for any closes and any window:
    its result is never a number outside [0,100] (it is [NaN] or a finite
    value between 0 and 100); it is 100 when the smoothed average loss is
    exactly 0; and it is a finite value between 0 and 100 whenever the two
    smoothed averages are finite. *)
Theorem X26_rsi_in_range_or_nan :
  (forall (closes : list JS.num) (period : nat),
     calculateRSI closes period = JS.NaN
     \/ exists q, calculateRSI closes period = Fin q /\ (0 <= q <= 100)%Q)
  /\ (forall (closes : list JS.num) (period : nat),
        (period + 1 <= length closes)%nat ->
        (snd (rsi_averages closes period) === Fin 0) = true ->
        calculateRSI closes period = Fin 100)
  /\ (forall (closes : list JS.num) (period : nat),
        JS.isFinite (fst (rsi_averages closes period)) = true ->
        JS.isFinite (snd (rsi_averages closes period)) = true ->
        exists q, calculateRSI closes period = Fin q /\ (0 <= q <= 100)%Q).
Proof.
  split; [|split].
  - intros closes period. unfold calculateRSI.
    destruct (length closes <? period + 1)%nat.
    { right. exists 50%Q. split; [reflexivity|]. lra. }
    destruct (rsi_averages closes period) as [avgGain avgLoss].
    destruct (avgLoss === Fin 0).
    { right. exists 100%Q. split; [reflexivity|]. lra. }
    cbv zeta.
    destruct (rsi_clamp (Fin 100 - Fin 100 / (Fin 1 + avgGain / avgLoss)))
      as [[_ ->]|[_ H]]; [by left|by right].
  - intros closes period Hlong Hzero. unfold calculateRSI.
    destruct (Nat.ltb_spec (length closes) (period + 1)); [lia|].
    destruct (rsi_averages closes period) as [avgGain avgLoss].
    simpl in Hzero. by rewrite Hzero.
  - intros closes period Hg Hl. unfold calculateRSI.
    destruct (length closes <? period + 1)%nat.
    { exists 50%Q. split; [reflexivity|]. lra. }
    destruct (rsi_averages closes period) as [avgGain avgLoss].
    cbn [fst snd] in Hg, Hl.
    apply isFinite_inv in Hg as [g ->]. apply isFinite_inv in Hl as [l ->].
    simpl (Fin l === Fin 0).
    destruct (Qeq_bool l 0) eqn:E.
    { exists 100%Q. split; [reflexivity|]. lra. }
    cbv zeta.
    assert (Hrs : Fin g / Fin l = Fin (g / l)) by (simpl; by rewrite E).
    rewrite Hrs. change (Fin 1 + Fin (g / l)) with (Fin (1 + g / l)).
    destruct (rsi_clamp (Fin 100 - Fin 100 / Fin (1 + g / l)))
      as [[Hnan _]|[_ H]]; [|exact H].
    simpl in Hnan. destruct (Qeq_bool (1 + g / l) 0); discriminate.
Qed.

End RSI.

(* ------------------------------------------------------------------ *)
(** ** Indicators on short input *)

Section ShortInput.
Import IndicatorCalculator.

Lemma length_positive (n : nat) :
  (0 < n)%nat -> (0 < inject_Z (Z.of_nat n))%Q.
Proof. intros H. pose proof (of_nat_positive n H). lra. Qed.

(** C7: on the empty array, below any window of at least one bar,
    [calculateSMA] divides the empty sum 0 by the length 0 and returns [NaN];
    [calculateEMA] on the same input returns its default 0. *)
Theorem C7_sma_of_empty_is_nan :
  forall period : nat,
    calculateSMA [] (S period) = Ok JS.NaN
    /\ calculateEMA [] (S period) = Ok (Fin 0).
Proof. intros period. split; reflexivity. Qed.

End ShortInput.

(* ------------------------------------------------------------------ *)
(** ** ADX range *)

Section ADX.
Import IndicatorCalculator.

(** The clamp of [calculateADX], with its [NaN] guard, on any value. *)
Lemma adx_clamp (x : JS.num) :
  exists q,
    JS.min (Fin 100) (JS.max (Fin 0) (if JS.isNaN x then Fin 20 else x)) = Fin q
    /\ (0 <= q <= 100)%Q.
Proof.
  destruct x as [r| | |]; simpl.
  - apply clamp_0_100.
  - exists 100%Q. split; [reflexivity|]. lra.
  - exists 0%Q. split; [reflexivity|]. lra.
  - exists 20%Q. split; [reflexivity|]. lra.
Qed.

(** X2: [calculateADX] returns a finite value between 0 and 100 on every
    input, finite or not, of any length and for any period. *)
Theorem X2_adx_range (highs lows closes : list JS.num) (period : nat) :
  exists q,
    calculateADX highs lows closes period = Fin q /\ (0 <= q <= 100)%Q.
Proof.
  unfold calculateADX.
  destruct (length highs <? period * 2 + 1)%nat.
  { exists 20%Q. split; [reflexivity|]. lra. }
  cbv zeta.
  match goal with
  | |- context [length (dxValues ?st) =? 0] =>
      destruct (length (dxValues st) =? 0)%nat
  end.
  { exists 20%Q. split; [reflexivity|]. lra. }
  apply adx_clamp.
Qed.

End ADX.

(* ------------------------------------------------------------------ *)
(** ** Write-through of the other mutators *)

Section WriteThrough.
Import Scenario.

Lemma logActivity_after_save (e : ActivityFeedEntry) (now : Z) (st : t) :
  disk (logActivity e (savePositions now st))
  = Some (snapshot (logActivity e (savePositions now st)) now).
Proof.
  destruct (logActivity_positions e (savePositions now st)) as (Hp & Hc & Hd).
  unfold snapshot. by rewrite Hp, Hc, Hd.
Qed.

(** X3: [addPosition] on a pair that is not open, a successful
    [addPyramidLevel] and [closePosition] on an open pair each end with the
    file holding the snapshot of the state they leave, stamped with the time
    of the call. *)
Theorem X3_mutators_write_through :
  (forall (now : Z) (pair : string)
          (entryPrice volume stopLoss profitTarget : JS.num) (ai : AIDecision)
          (adx : JS.num) (regime : Regime) (erosionCap : JS.num) (st : t),
     positions st !! pair = None ->
     let st' := addPosition now pair entryPrice volume stopLoss profitTarget ai
                            adx regime erosionCap st in
     disk st' = Some (snapshot st' now))
  /\ (forall (now : Z) (pair : string) (level : PyramidLevel.Level)
             (entryPrice volume aiConfidence : JS.num) (st : t),
        let r := addPyramidLevel now pair level entryPrice volume aiConfidence
                                 st in
        fst r = true -> disk (snd r) = Some (snapshot (snd r) now))
  /\ (forall (now : Z) (pair : string) (exitPrice : JS.num)
             (exitReason : string) (st : t) (p : Position),
        positions st !! pair = Some p ->
        let st' := closePosition now pair exitPrice exitReason st in
        disk st' = Some (snapshot st' now)).
Proof.
  split; [|split].
  - intros now pair entryPrice volume stopLoss profitTarget ai adx regime
           erosionCap st Hnone. cbv zeta. unfold addPosition. rewrite Hnone.
    apply logActivity_after_save.
  - intros now pair level entryPrice volume aiConfidence st. cbv zeta.
    unfold addPyramidLevel.
    destruct (positions st !! pair) as [p|]; [|discriminate].
    destruct (2 <=? pyramidLevelsActivated p)%nat; [discriminate|].
    destruct (existsb _ _); [discriminate|].
    intros _. apply logActivity_after_save.
  - intros now pair exitPrice exitReason st p Hp. cbv zeta.
    unfold closePosition. by rewrite Hp.
Qed.

Lemma X3_mutators_write_through_witness :
  disk (closePosition 9 uw (Fin 99) "Underwater Timeout" uw_991)
  = Some (snapshot (closePosition 9 uw (Fin 99) "Underwater Timeout" uw_991) 9).
Proof.
  refine (proj2 (proj2 X3_mutators_write_through) 9%Z uw (Fin 99)
            "Underwater Timeout" uw_991 _ _).
  vm_compute. reflexivity.
Defined.

End WriteThrough.

(* ------------------------------------------------------------------ *)
(** ** At most one level 1 and one level 2 *)

Section PyramidInvariant.
Import Scenario.

Lemma level_not_in (level : PyramidLevel.Level) (levels : list PyramidLevel.t) :
  existsb (fun l => PyramidLevel.Level_eqb (PyramidLevel.level l) level) levels
  = false ->
  ~ In level (map PyramidLevel.level levels).
Proof.
  induction levels as [|l levels IH]; simpl; [tauto|].
  intros H. apply orb_false_iff in H as [Hl Hrest].
  intros [Heq|Hin]; [|by apply IH].
  rewrite Heq in Hl. by destruct level.
Qed.

Lemma nodup_levels_length (ls : list PyramidLevel.Level) :
  List.NoDup ls -> (length ls <= 2)%nat.
Proof.
  intros H.
  destruct ls as [|a [|b [|c ls]]]; simpl; try lia.
  exfalso.
  inversion H as [|? ? Ha H1]; subst.
  inversion H1 as [|? ? Hb H2]; subst.
  simpl in Ha, Hb. destruct a, b, c; tauto.
Qed.

(** One call keeps the position and its bookkeeping. *)
Lemma addPyramidLevel_keeps_ok (now : Z) (pair : string)
    (level : PyramidLevel.Level) (entryPrice volume aiConfidence : JS.num)
    (st : t) (p : Position) :
  positions st !! pair = Some p ->
  pyramid_ok p ->
  exists q,
    positions (snd (addPyramidLevel now pair level entryPrice volume
                                    aiConfidence st)) !! pair = Some q
    /\ pyramid_ok q.
Proof.
  intros Hp [Hcount Hnodup].
  destruct (2 <=? pyramidLevelsActivated p)%nat eqn:Hmax.
  { exists p. unfold addPyramidLevel. rewrite Hp, Hmax. by split. }
  destruct (existsb (fun l => PyramidLevel.Level_eqb (PyramidLevel.level l) level)
                    (pyramidLevels p)) eqn:Hdup.
  { exists p. rewrite (addPyramidLevel_duplicate _ _ _ _ _ _ _ _ Hp Hdup).
    by split. }
  apply Nat.leb_gt in Hmax.
  destruct (addPyramidLevel_accepted now pair level entryPrice volume
              aiConfidence st p Hp Hmax Hdup) as [_ Hq].
  eexists. split; [exact Hq|].
  split; simpl.
  - rewrite length_app. simpl. lia.
  - rewrite map_app. simpl. apply List.NoDup_app; [done| |].
    + constructor; [simpl; tauto|constructor].
    + intros x Hx [<-|[]]. by apply (level_not_in _ _ Hdup).
Qed.

(** X4: whatever [addPyramidLevel] calls are made on a pair, in any order
    and with any arguments, its position never holds the same level number
    twice and never more than two levels, and the counter
    [pyramidLevelsActivated] stays the number of levels. *)
Theorem X4_at_most_one_of_each_level (pair : string)
    (calls : list PyramidCall) :
  forall (st : t) (p : Position),
    positions st !! pair = Some p ->
    pyramid_ok p ->
    exists q,
      positions (pyramidCalls pair calls st) !! pair = Some q
      /\ List.NoDup (map PyramidLevel.level (pyramidLevels q))
      /\ (length (pyramidLevels q) <= 2)%nat
      /\ pyramidLevelsActivated q = length (pyramidLevels q).
Proof.
  induction calls as [|c calls IH]; intros st p Hp Hok.
  - exists p. destruct Hok as [Hcount Hnodup].
    split; [exact Hp|]. split; [exact Hnodup|]. split; [|exact Hcount].
    rewrite <- (length_map PyramidLevel.level). by apply nodup_levels_length.
  - destruct (addPyramidLevel_keeps_ok (callTime c) pair (callLevel c)
                (callPrice c) (callVolume c) (callConfidence c) st p Hp Hok)
      as (q & Hq & Hokq).
    exact (IH _ q Hq Hokq).
Qed.

Lemma X4_at_most_one_of_each_level_witness :
  exists q,
    positions
      (pyramidCalls uw
         [mkPyramidCall 1 PyramidLevel.L2 (Fin 108) (Fin 5) (Fin 90);
          mkPyramidCall 2 PyramidLevel.L2 (Fin 109) (Fin 5) (Fin 91);
          mkPyramidCall 3 PyramidLevel.L1 (Fin 110) (Fin 3) (Fin 92);
          mkPyramidCall 4 PyramidLevel.L1 (Fin 111) (Fin 3) (Fin 93)]
         uw_open) !! uw = Some q
    /\ List.NoDup (map PyramidLevel.level (pyramidLevels q))
    /\ (length (pyramidLevels q) <= 2)%nat
    /\ pyramidLevelsActivated q = length (pyramidLevels q).
Proof.
  refine (X4_at_most_one_of_each_level uw _ uw_open
            (mkPosition uw (Fin 100) (Fin 10) 0 (Fin 95) (Fin 110)
               [] (Fin 10) 0 (Fin 0) (Fin 0) (Fin 0) (Fin (8 # 1000)) (Fin 0)
               [] (Fin 0) moderate open None None None) _ _).
  - vm_compute. reflexivity.
  - split; [reflexivity|]. constructor.
Defined.

End PyramidInvariant.

(* ------------------------------------------------------------------ *)
(** ** The activity feed *)

Section ActivityFeed.

(** X5: with a positive bound, [logActivity] leaves at most
    [maxActivityFeedSize] entries whatever the feed held before, the new
    entry is the last one, and what is dropped is a prefix (the oldest
    entries) of the feed with the new entry appended. *)
Theorem X5_activity_feed_bounded (e : ActivityFeedEntry) (st : t) :
  (0 < maxActivityFeedSize st)%nat ->
  let feed' := activityFeed (logActivity e st) in
  (length feed' <= maxActivityFeedSize st)%nat
  /\ last feed' = Some e
  /\ exists evicted, activityFeed st ++ [e] = evicted ++ feed'.
Proof.
  intros Hmax. unfold logActivity. cbv zeta.
  pose proof (length_app (activityFeed st) [e]) as Hlen. simpl in Hlen.
  destruct (Nat.ltb_spec (maxActivityFeedSize st)
                         (length (activityFeed st ++ [e]))) as [Hover|Hfit].
  - simpl. unfold slice_last.
    destruct (Nat.eqb_spec (maxActivityFeedSize st) 0) as [|_]; [lia|].
    split; [rewrite length_skipn; lia|].
    split.
    + rewrite skipn_app.
      replace (length (activityFeed st ++ [e]) - maxActivityFeedSize st
               - length (activityFeed st))%nat with 0%nat by lia.
      simpl. apply last_snoc.
    + exists (firstn (length (activityFeed st ++ [e]) - maxActivityFeedSize st)
                     (activityFeed st ++ [e])).
      by rewrite firstn_skipn.
  - simpl. split; [lia|]. split; [apply last_snoc|]. by exists [].
Qed.

Lemma X5_activity_feed_bounded_witness :
  (length (activityFeed
             (logActivity (mkActivity 1 "ETH/USD" ENTRY []) Scenario.eth_open))
   <= 100)%nat.
Proof.
  refine (proj1 (X5_activity_feed_bounded (mkActivity 1 "ETH/USD" ENTRY [])
                   Scenario.eth_open _)).
  vm_compute. lia.
Defined.

End ActivityFeed.

(* ------------------------------------------------------------------ *)
(** ** RSI of a series that never falls *)

Section RisingRSI.
Import IndicatorCalculator.

Lemma get_delta_nonneg (deltas : list JS.num) (i : nat) :
  Forall (fun d => (Fin 0 <=? d) = true) deltas ->
  (i < length deltas)%nat ->
  (Fin 0 <=? JS.get deltas i) = true.
Proof.
  intros H Hi. unfold JS.get.
  eapply (proj1 (List.Forall_forall _ deltas) H). by apply nth_In.
Qed.

Lemma zero_div (l p : Q) : (l == 0)%Q -> (0 < p)%Q -> (l / p == 0)%Q.
Proof.
  intros Hl Hp. unfold Qdiv. rewrite Hl. apply Qmult_0_l.
Qed.

Lemma rsi_seed_zero_loss (deltas : list JS.num) (period : nat) :
  Forall (fun d => (Fin 0 <=? d) = true) deltas ->
  (period <= length deltas)%nat ->
  zero_loss (rsi_seed deltas period).
Proof.
  intros Hd Hp. unfold rsi_seed.
  apply (fold_left_invariant zero_loss (fun i => (0 <= i < 0 + period)%nat)).
  - apply seq_bounds.
  - intros [gains losses] i (l & Hl & Hzero) Hi. simpl in Hl. subst losses.
    pose proof (get_delta_nonneg deltas i Hd ltac:(lia)) as Hnonneg.
    destruct (JS.get deltas i) as [d| | |]; simpl in Hnonneg; try discriminate.
    + unfold JS.gtb. simpl.
      apply Qle_bool_iff in Hnonneg.
      destruct (JS.Qltb 0 d) eqn:E; [by exists l|].
      apply Qltb_false in E.
      exists (l + Qabs d)%Q. split; [reflexivity|].
      rewrite (Qabs_pos d Hnonneg). lra.
    + by exists l.
  - exists 0%Q. split; reflexivity.
Qed.

Lemma rsi_smooth_zero_loss (deltas : list JS.num) (period : nat)
    (acc : JS.num * JS.num) (i : nat) :
  Forall (fun d => (Fin 0 <=? d) = true) deltas ->
  (0 < period)%nat ->
  (i < length deltas)%nat ->
  zero_loss acc ->
  zero_loss (rsi_smooth deltas period acc i).
Proof.
  intros Hd Hp Hi (l & Hl & Hzero). destruct acc as [avgGain avgLoss].
  simpl in Hl. subst avgLoss.
  pose proof (get_delta_nonneg deltas i Hd Hi) as Hnonneg.
  pose proof (length_positive period Hp) as HP.
  unfold rsi_smooth.
  assert (Hloss : (if JS.get deltas i <? Fin 0 then JS.abs (JS.get deltas i)
                   else Fin 0) = Fin 0).
  { destruct (JS.get deltas i) as [d| | |]; simpl in *; try done.
    apply Qle_bool_iff in Hnonneg.
    destruct (JS.Qltb d 0) eqn:E; [|reflexivity].
    apply Qltb_true in E. lra. }
  rewrite Hloss. unfold JS.of_nat, JS.of_Z.
  set (P := inject_Z (Z.of_nat period)) in *.
  change (Fin l * (Fin P - Fin 1) + Fin 0) with (Fin (l * (P + - 1) + 0)).
  rewrite (div_by_positive _ P HP).
  eexists. split; [reflexivity|].
  apply zero_div; [|done]. rewrite Hzero. lra.
Qed.

(** X6: for a window of at least one bar and at least [period + 1] closes
    none of which is below the one before it, [calculateRSI] returns 100. *)
Theorem X6_rsi_of_rising_series (closes : list JS.num) (period : nat) :
  (0 < period)%nat ->
  (period + 1 <= length closes)%nat ->
  never_falls closes ->
  calculateRSI closes period = Fin 100.
Proof.
  intros Hp Hlen Hrise. unfold calculateRSI.
  destruct (Nat.ltb_spec (length closes) (period + 1)); [lia|].
  pose proof (rsi_deltas_length closes) as Hdl.
  pose proof (length_positive period Hp) as HP.
  assert (Hzero : zero_loss (rsi_averages closes period)).
  { unfold rsi_averages.
    destruct (rsi_seed_zero_loss (rsi_deltas closes) period Hrise ltac:(lia))
      as (l & Hl & Hzero).
    destruct (rsi_seed (rsi_deltas closes) period) as [gains losses].
    simpl in Hl. subst losses.
    apply (fold_left_invariant zero_loss
             (fun i => (period <= i
                        < period + (length (rsi_deltas closes) - period))%nat)).
    - apply seq_bounds.
    - intros acc i Hacc Hi. apply rsi_smooth_zero_loss; try done. lia.
    - unfold JS.of_nat, JS.of_Z. rewrite (div_by_positive l _ HP).
      eexists. split; [reflexivity|]. by apply zero_div. }
  destruct (rsi_averages closes period) as [avgGain avgLoss].
  destruct Hzero as (l & Hl & Hzero). simpl in Hl. subst avgLoss.
  simpl. apply Qeq_bool_iff in Hzero. by rewrite Hzero.
Qed.

Lemma X6_rsi_of_rising_series_witness :
  calculateRSI (map JS.of_Z [10; 11; 11; 13; 20]%Z) 3 = Fin 100.
Proof.
  refine (X6_rsi_of_rising_series (map JS.of_Z [10; 11; 11; 13; 20]%Z) 3 _ _ _).
  - lia.
  - simpl. lia.
  - repeat constructor.
Defined.

End RisingRSI.

(* ------------------------------------------------------------------ *)
(** ** What each call changes *)

Section Effects.
Import Scenario.

(** [updatePosition] assigns the four profit fields and nothing else. *)
Lemma refreshed_is_set_profit (p : Position) (price : JS.num) :
  exists cur pct peak erosion,
    refreshed p price = set_profit cur pct peak erosion p.
Proof.
  unfold refreshed.
  destruct (fold_left _ _ _) as [totalProfit totalCost].
  destruct (totalProfit >? peakProfit p); by do 4 eexists.
Qed.

(** The three risk checks: the state they leave is the old one or the old
    one with one record logged, and it is the old one when they answer
    [false]. *)
Lemma checkErosionCap_effect (now : Z) (pair : string) (st : t) :
  (fst (checkErosionCap now pair st) = false
   /\ snd (checkErosionCap now pair st) = st)
  \/ (fst (checkErosionCap now pair st) = true
      /\ exists e, action e = EROSION_ALERT
                   /\ snd (checkErosionCap now pair st) = logActivity e st).
Proof.
  unfold checkErosionCap.
  destruct (positions st !! pair) as [p|]; [|by left].
  destruct (peakProfit p <=? Fin 0); [by left|].
  destruct (peakProfitPctOf p <? Fin 1); [by left|].
  destruct (erosionUsed p / peakProfit p >? profitLockGivebackPct st);
    [right|by left].
  split; [reflexivity|]. eexists. split; [|reflexivity]. reflexivity.
Qed.

Lemma checkUnderwaterExit_effect (now : Z) (pair : string) (config : Config)
    (st : t) :
  (fst (checkUnderwaterExit now pair config st) = false
   /\ snd (checkUnderwaterExit now pair config st) = st)
  \/ (fst (checkUnderwaterExit now pair config st) = true
      /\ exists e, action e = UNDERWATER_ALERT
                   /\ snd (checkUnderwaterExit now pair config st)
                      = logActivity e st).
Proof.
  unfold checkUnderwaterExit.
  destruct (positions st !! pair) as [p|]; [|by left].
  destruct (peakProfit p >? Fin 0); [by left|].
  destruct (currentProfit p >=? Fin 0); [by left|].
  destruct (_ <? underwaterExitMinTimeMinutes config); [by left|].
  destruct (profitPct p <? _); [right|by left].
  split; [reflexivity|]. eexists. split; [|reflexivity]. reflexivity.
Qed.

Lemma checkProfitableCollapse_effect (now : Z) (pair : string) (st : t) :
  (fst (checkProfitableCollapse now pair st) = false
   /\ snd (checkProfitableCollapse now pair st) = st)
  \/ (fst (checkProfitableCollapse now pair st) = true
      /\ exists e, action e = COLLAPSE_ALERT
                   /\ snd (checkProfitableCollapse now pair st)
                      = logActivity e st).
Proof.
  unfold checkProfitableCollapse.
  destruct (positions st !! pair) as [p|]; [|by left].
  destruct (peakProfitPctOf p <? Fin (1 # 2)); [by left|].
  destruct (currentProfit p >=? Fin 0); [by left|right].
  split; [reflexivity|]. eexists. split; [|reflexivity]. reflexivity.
Qed.

Lemma logActivity_accountBalance (e : ActivityFeedEntry) (st : t) :
  accountBalance (logActivity e st) = accountBalance st
  /\ profitLockGivebackPct (logActivity e st) = profitLockGivebackPct st
  /\ maxActivityFeedSize (logActivity e st) = maxActivityFeedSize st.
Proof.
  unfold logActivity.
  by destruct (maxActivityFeedSize st <? length (activityFeed st ++ [e]))%nat.
Qed.

(** X8: the three risk checks never change the open positions, the closed
    history, the file or the configuration; a check that answers [false]
    leaves the whole tracker as it was, and one that answers [true] only
    appends its alert record to the activity feed. *)
Theorem X8_checks_only_log (now : Z) (pair : string) (config : Config)
    (st : t) :
  let results :=
    [checkErosionCap now pair st;
     checkUnderwaterExit now pair config st;
     checkProfitableCollapse now pair st] in
  Forall
    (fun r : bool * t =>
       positions (snd r) = positions st
       /\ closedPositions (snd r) = closedPositions st
       /\ disk (snd r) = disk st
       /\ accountBalance (snd r) = accountBalance st
       /\ profitLockGivebackPct (snd r) = profitLockGivebackPct st
       /\ (fst r = false -> snd r = st)
       /\ (fst r = true -> exists e, snd r = logActivity e st))
    results.
Proof.
  cbv zeta.
  assert (Hlog : forall (r : bool * t),
             (fst r = false /\ snd r = st)
             \/ (fst r = true /\ exists e, snd r = logActivity e st) ->
             positions (snd r) = positions st
             /\ closedPositions (snd r) = closedPositions st
             /\ disk (snd r) = disk st
             /\ accountBalance (snd r) = accountBalance st
             /\ profitLockGivebackPct (snd r) = profitLockGivebackPct st
             /\ (fst r = false -> snd r = st)
             /\ (fst r = true -> exists e, snd r = logActivity e st)).
  { intros [b s]. simpl. intros [[-> ->]|[-> [e ->]]].
    - do 6 (split; [done|]). discriminate.
    - destruct (logActivity_positions e st) as (Hp & Hc & Hd).
      destruct (logActivity_accountBalance e st) as (Hb & Hg & _).
      do 5 (split; [done|]). split; [discriminate|]. by exists e. }
  constructor; [apply Hlog|constructor; [apply Hlog|constructor; [apply Hlog|constructor]]].
  - destruct (checkErosionCap_effect now pair st) as [H|[H (e & _ & He)]];
      [left; exact H|right]. split; [exact H|]. by exists e.
  - destruct (checkUnderwaterExit_effect now pair config st)
      as [H|[H (e & _ & He)]]; [left; exact H|right].
    split; [exact H|]. by exists e.
  - destruct (checkProfitableCollapse_effect now pair st)
      as [H|[H (e & _ & He)]]; [left; exact H|right].
    split; [exact H|]. by exists e.
Qed.

End Effects.

(* ------------------------------------------------------------------ *)
(** ** Invariants of the tracker *)

Section Invariants.
Import Scenario.

Lemma addPosition_fields (now : Z) (pair : string)
    (entryPrice volume stopLoss profitTarget : JS.num) (ai : AIDecision)
    (adx : JS.num) (regime : Regime) (erosionCap : JS.num) (st : t) :
  let st' := addPosition now pair entryPrice volume stopLoss profitTarget ai
                         adx regime erosionCap st in
  closedPositions st' = closedPositions st
  /\ (positions st' = positions st
      \/ (positions st !! pair = None
          /\ positions st'
             = <[pair := mkPosition pair entryPrice volume now stopLoss
                           profitTarget [] volume 0 (Fin 0) (Fin 0) (Fin 0)
                           erosionCap (Fin 0) (reasoning ai) adx regime open
                           None None None]> (positions st))).
Proof.
  cbv zeta. unfold addPosition.
  destruct (positions st !! pair) eqn:Hp; [by split; [|left]|].
  match goal with
  | |- context [logActivity ?e ?s] =>
      destruct (logActivity_positions e s) as (-> & -> & _)
  end.
  split; [reflexivity|]. right. by split.
Qed.

Lemma addPyramidLevel_fields (now : Z) (pair : string)
    (level : PyramidLevel.Level) (entryPrice volume aiConfidence : JS.num)
    (st : t) :
  let st' := snd (addPyramidLevel now pair level entryPrice volume aiConfidence
                                  st) in
  closedPositions st' = closedPositions st
  /\ (positions st' = positions st
      \/ exists p,
           positions st !! pair = Some p
           /\ (pyramidLevelsActivated p < 2)%nat
           /\ existsb
                (fun l => PyramidLevel.Level_eqb (PyramidLevel.level l) level)
                (pyramidLevels p) = false
           /\ positions st'
              = <[pair := set_pyramid
                            (pyramidLevels p
                               ++ [new_level now level entryPrice volume
                                             aiConfidence])
                            (totalVolume p + volume)
                            (S (pyramidLevelsActivated p)) p]> (positions st)).
Proof.
  cbv zeta. unfold addPyramidLevel.
  destruct (positions st !! pair) as [p|] eqn:Hp; [|by split; [|left]].
  destruct (Nat.leb_spec 2 (pyramidLevelsActivated p)); [by split; [|left]|].
  destruct (existsb _ _) eqn:Hdup; [by split; [|left]|].
  cbn [snd].
  match goal with
  | |- context [logActivity ?e ?s] =>
      destruct (logActivity_positions e s) as (-> & -> & _)
  end.
  split; [reflexivity|]. right. exists p. by repeat split.
Qed.

Lemma closePosition_fields (now : Z) (pair : string) (exitPrice : JS.num)
    (exitReason : string) (st : t) :
  let st' := closePosition now pair exitPrice exitReason st in
  (positions st' = positions st /\ closedPositions st' = closedPositions st)
  \/ exists p,
       positions st !! pair = Some p
       /\ positions st' = delete pair (positions st)
       /\ closedPositions st'
          = closedPositions st ++ [exited now p exitPrice exitReason].
Proof.
  cbv zeta. unfold closePosition.
  destruct (positions st !! pair) as [p|] eqn:Hp; [|by left].
  right. exists p. split; [reflexivity|].
  match goal with
  | |- context [logActivity ?e st] =>
      destruct (logActivity_positions e st) as (Hpos & Hclosed & _);
      set (logged := logActivity e st) in *
  end.
  simpl. by rewrite Hpos, Hclosed.
Qed.

(** The closed history after one call: unchanged, or one entry longer. *)
Lemma step_closed (op : Op) (st : t) :
  closedPositions (step op st) = closedPositions st
  \/ exists p, closedPositions (step op st) = closedPositions st ++ [p]
               /\ closed_ok p.
Proof.
  destruct op as [now pr e v sl pt ai adx rg cap|pr price|now pr level e v c|now pr|now pr cfg
                |now pr|now pr price reason|bal|]; simpl.
  - left. apply addPosition_fields.
  - left. unfold updatePosition. by destruct (positions st !! pr).
  - left. apply addPyramidLevel_fields.
  - left. by destruct (checkErosionCap_effect now pr st)
      as [[_ ->]|[_ (e & _ & ->)]]; [|apply logActivity_positions].
  - left. by destruct (checkUnderwaterExit_effect now pr cfg st)
      as [[_ ->]|[_ (e & _ & ->)]]; [|apply logActivity_positions].
  - left. by destruct (checkProfitableCollapse_effect now pr st)
      as [[_ ->]|[_ (e & _ & ->)]]; [|apply logActivity_positions].
  - destruct (closePosition_fields now pr price reason st)
      as [[_ H]|(p & _ & _ & H)]; [by left|right].
    eexists. split; [exact H|]. by repeat split.
  - by left.
  - by left.
Qed.

(** The open positions after one call: every one of them is an old one, a
    new one, or an old one with its profit or pyramid fields reassigned. *)
Lemma step_open_ok (op : Op) (st : t) :
  (forall k p, positions st !! k = Some p -> open_ok k p) ->
  forall k p, positions (step op st) !! k = Some p -> open_ok k p.
Proof.
  intros Hok k q.
  destruct op as [now pr e v sl pt ai adx rg cap|pr price|now pr level e v c|now pr|now pr cfg
                |now pr|now pr price reason|bal|]; simpl.
  - destruct (addPosition_fields now pr e v sl pt ai adx rg cap st)
      as [_ [->|[_ ->]]]; [apply Hok|].
    intros [[<- <-]|[_ H]]%lookup_insert_Some; [|by apply Hok].
    repeat split; try done. constructor.
  - unfold updatePosition.
    destruct (positions st !! pr) as [p|] eqn:Hp; [|apply Hok]. simpl.
    intros [[<- <-]|[_ H]]%lookup_insert_Some; [|by apply Hok].
    destruct (refreshed_is_set_profit p price) as (a & b & c & d & ->).
    exact (Hok _ _ Hp).
  - destruct (addPyramidLevel_fields now pr level e v c st)
      as [_ [->|(p & Hp & Hlt & Hdup & ->)]]; [apply Hok|].
    intros [[<- <-]|[_ H]]%lookup_insert_Some; [|by apply Hok].
    destruct (Hok _ _ Hp) as (H1 & H2 & H3 & H4 & H5 & Hcount & Hnodup).
    do 5 (split; [done|]). split; simpl.
    + rewrite length_app. simpl. lia.
    + rewrite map_app. simpl. apply List.NoDup_app; [done| |].
      * constructor; [simpl; tauto|constructor].
      * intros x Hx [<-|[]]. by apply (level_not_in _ _ Hdup).
  - destruct (checkErosionCap_effect now pr st)
      as [[_ ->]|[_ (e & _ & ->)]]; [apply Hok|].
    rewrite (proj1 (logActivity_positions e st)). apply Hok.
  - destruct (checkUnderwaterExit_effect now pr cfg st)
      as [[_ ->]|[_ (e & _ & ->)]]; [apply Hok|].
    rewrite (proj1 (logActivity_positions e st)). apply Hok.
  - destruct (checkProfitableCollapse_effect now pr st)
      as [[_ ->]|[_ (e & _ & ->)]]; [apply Hok|].
    rewrite (proj1 (logActivity_positions e st)). apply Hok.
  - destruct (closePosition_fields now pr price reason st)
      as [[-> _]|(p & _ & -> & _)]; [apply Hok|].
    intros [_ H]%lookup_delete_Some. by apply Hok.
  - apply Hok.
  - by rewrite lookup_empty.
Qed.

Lemma step_well_formed (op : Op) (st : t) :
  well_formed st -> well_formed (step op st).
Proof.
  intros [Hopen Hclosed]. split; [by apply step_open_ok|].
  destruct (step_closed op st) as [->|(p & -> & Hp)]; [done|].
  apply Forall_app. split; [done|]. by constructor.
Qed.

Lemma fresh_well_formed (givebackPct balance : JS.num) :
  well_formed (new None givebackPct balance).
Proof.
  split; [|constructor]. intros k p. simpl. by rewrite lookup_empty.
Qed.

Lemma run_snoc (ops : list Op) (op : Op) (st : t) :
  run (ops ++ [op]) st = step op (run ops st).
Proof. unfold run. by rewrite fold_left_app. Qed.

Lemma run_well_formed (ops : list Op) (st : t) :
  well_formed st -> well_formed (run ops st).
Proof.
  intros Hst. induction ops as [|op ops IH] using rev_ind; [done|].
  rewrite run_snoc. by apply step_well_formed.
Qed.

Lemma values_open (m : gmap string Position) :
  (forall k p, m !! k = Some p -> open_ok k p) ->
  Forall (fun p => status p = open) (values m).
Proof.
  intros Hok. unfold values. apply List.Forall_forall. intros p Hin.
  apply in_map_iff in Hin as ([k q] & <- & Hin). simpl.
  apply list_elem_of_In, elem_of_map_to_list in Hin.
  by destruct (Hok _ _ Hin) as (_ & ? & _).
Qed.

Lemma filter_all {A : Type} (f : A -> bool) (l : list A) :
  Forall (fun x => f x = true) l -> List.filter f l = l.
Proof.
  induction 1 as [|x l Hx _ IH]; simpl; [done|]. by rewrite Hx, IH.
Qed.

(** X9: whatever calls are made on a well-formed tracker (a fresh one is
    well-formed), it stays well-formed: every open position is stored under
    its own pair, has status open, no exit recorded, at most two pyramid
    levels with distinct level numbers and a counter equal to their number;
    every entry of the closed history has status closed and its exit price,
    time and reason recorded; and [getOpenPositions] returns all the values
    of the open map. *)
Theorem X9_tracker_invariant (ops : list Op) (st : t) :
  well_formed st ->
  well_formed (run ops st)
  /\ getOpenPositions (run ops st) = values (positions (run ops st))
  /\ (forall k p,
        positions (run ops st) !! k = Some p ->
        (length (pyramidLevels p) <= 2)%nat).
Proof.
  intros Hst. pose proof (run_well_formed ops st Hst) as [Hopen Hclosed].
  split; [by split|]. split.
  - unfold getOpenPositions. apply filter_all.
    eapply List.Forall_impl; [|by apply values_open].
    intros p Hp. simpl in Hp. by rewrite Hp.
  - intros k p Hp. destruct (Hopen _ _ Hp) as (_ & _ & _ & _ & _ & _ & Hnodup).
    rewrite <- (length_map PyramidLevel.level). by apply nodup_levels_length.
Qed.

Lemma X9_tracker_invariant_witness :
  well_formed
    (run [OpAddPosition 0 uw (Fin 100) (Fin 10) (Fin 95) (Fin 110) ai (Fin 0)
                        moderate (Fin (8 # 1000));
          OpUpdatePosition uw (Fin 101);
          OpAddPyramidLevel 5 uw PyramidLevel.L2 (Fin 101) (Fin 2) (Fin 90);
          OpClosePosition 9 uw (Fin 99) "Stop Loss"]
         fresh).
Proof.
  refine (proj1 (X9_tracker_invariant _ fresh _)).
  apply fresh_well_formed.
Defined.

(** X10: the closed history is append-only: after any sequence of calls it
    is the old history followed by the entries closed since, each with status
    closed and its exit recorded; no call removes or changes an entry. *)
Theorem X10_closed_history_append_only (ops : list Op) (st : t) :
  exists added,
    closedPositions (run ops st) = closedPositions st ++ added
    /\ Forall closed_ok added
    /\ (length added <= length ops)%nat.
Proof.
  induction ops as [|op ops (added & IH & Hok & Hlen)] using rev_ind.
  - exists []. split; [by rewrite app_nil_r|]. split; [constructor|done].
  - rewrite run_snoc, length_app. simpl.
    destruct (step_closed op (run ops st)) as [->|(p & -> & Hp)].
    + exists added. split; [done|]. split; [done|lia].
    + exists (added ++ [p]). rewrite IH, <- app_assoc.
      split; [done|]. split.
      * apply Forall_app. split; [done|]. by constructor.
      * rewrite length_app. simpl. lia.
Qed.

(** X11: pairs are independent: a call that names a pair leaves the open
    position of every other pair (present or absent) exactly as it was; so
    does [updateAccountBalance]. *)
Theorem X11_other_pairs_untouched (op : Op) (other : string) (st : t) :
  op_pair op <> Some other ->
  op <> OpClearAll ->
  positions (step op st) !! other = positions st !! other.
Proof.
  intros Hpair Hclear.
  destruct op as [now pr e v sl pt ai adx rg cap|pr price|now pr level e v c
                 |now pr|now pr cfg|now pr|now pr price reason|bal|]; simpl;
    simpl in Hpair.
  - destruct (addPosition_fields now pr e v sl pt ai adx rg cap st)
      as [_ [->|[_ ->]]]; [done|].
    apply lookup_insert_ne. congruence.
  - unfold updatePosition. destruct (positions st !! pr); [|done]. simpl.
    apply lookup_insert_ne. congruence.
  - destruct (addPyramidLevel_fields now pr level e v c st)
      as [_ [->|(p & _ & _ & _ & ->)]]; [done|].
    apply lookup_insert_ne. congruence.
  - destruct (checkErosionCap_effect now pr st)
      as [[_ ->]|[_ (a & _ & ->)]]; [done|].
    by rewrite (proj1 (logActivity_positions a st)).
  - destruct (checkUnderwaterExit_effect now pr cfg st)
      as [[_ ->]|[_ (a & _ & ->)]]; [done|].
    by rewrite (proj1 (logActivity_positions a st)).
  - destruct (checkProfitableCollapse_effect now pr st)
      as [[_ ->]|[_ (a & _ & ->)]]; [done|].
    by rewrite (proj1 (logActivity_positions a st)).
  - destruct (closePosition_fields now pr price reason st)
      as [[-> _]|(p & _ & -> & _)]; [done|].
    apply lookup_delete_ne. congruence.
  - done.
  - done.
Qed.

Lemma X11_other_pairs_untouched_witness :
  positions (step (OpClosePosition 9 uw (Fin 99) "Stop Loss")
                  (addPosition 1 eth (Fin 3000) (Fin 1) (Fin 2900) (Fin 3200)
                               ai (Fin 0) moderate (Fin (8 # 1000)) uw_991))
    !! eth
  = positions (addPosition 1 eth (Fin 3000) (Fin 1) (Fin 2900) (Fin 3200) ai
                           (Fin 0) moderate (Fin (8 # 1000)) uw_991) !! eth.
Proof.
  refine (X11_other_pairs_untouched
            (OpClosePosition 9 uw (Fin 99) "Stop Loss") eth _ _ _).
  - vm_compute. discriminate.
  - discriminate.
Defined.

End Invariants.

(* ------------------------------------------------------------------ *)
(** ** Reloading what was saved *)

Section Reload.
Import Scenario.

Lemma load_lookup_other (l : list Position) (acc : gmap string Position)
    (k : string) :
  ~ In k (map pair l) ->
  fold_left (fun m posData => <[pair posData := posData]> m) l acc !! k
  = acc !! k.
Proof.
  revert acc. induction l as [|q l IH]; intros acc Hk; simpl; [done|].
  simpl in Hk. rewrite IH by tauto. apply lookup_insert_ne. tauto.
Qed.

Lemma load_lookup_in (l : list Position) (acc : gmap string Position)
    (p : Position) :
  List.NoDup (map pair l) ->
  In p l ->
  fold_left (fun m posData => <[pair posData := posData]> m) l acc !! pair p
  = Some p.
Proof.
  revert acc. induction l as [|q l IH]; intros acc Hnodup Hin; [done|].
  simpl. inversion Hnodup as [|? ? Hq Hrest]; subst.
  destruct Hin as [->|Hin].
  - rewrite load_lookup_other by done. apply lookup_insert_eq.
  - by apply IH.
Qed.

Lemma values_keys (m : gmap string Position) :
  (forall k p, m !! k = Some p -> pair p = k) ->
  map pair (values m) = map fst (map_to_list m).
Proof.
  intros Hkeys. unfold values. rewrite List.map_map.
  apply map_ext_in. intros [k p] Hin. simpl.
  apply list_elem_of_In, elem_of_map_to_list in Hin. by apply Hkeys.
Qed.

Lemma load_values (m : gmap string Position) :
  (forall k p, m !! k = Some p -> pair p = k) ->
  fold_left (fun acc posData => <[pair posData := posData]> acc) (values m) ∅
  = m.
Proof.
  intros Hkeys. apply map_eq. intros k.
  destruct (m !! k) as [p|] eqn:Hk.
  - rewrite <- (Hkeys _ _ Hk). apply load_lookup_in.
    + rewrite values_keys by done.
      apply NoDup_ListNoDup, NoDup_fst_map_to_list.
    + unfold values. apply in_map_iff. exists (k, p). split; [done|].
      by apply list_elem_of_In, elem_of_map_to_list.
  - rewrite load_lookup_other; [apply lookup_empty|].
    rewrite values_keys by done. intros Hin.
    apply in_map_iff in Hin as ([k' p] & Heq & Hin). simpl in Heq. subst k'.
    apply list_elem_of_In, elem_of_map_to_list in Hin. congruence.
Qed.

(** X12: a restart restores what the last write saw.  For a tracker whose
    open positions are stored under their own pair and whose numbers are all
    finite (so that JSON carries them), constructing a new tracker over the
    document that [savePositions] writes gives the same open positions and
    the same closed history, with an empty activity feed. *)
Theorem X12_reload_round_trip (now : Z) (givebackPct balance : JS.num)
    (st : t) :
  (forall k p, positions st !! k = Some p -> pair p = k) ->
  json_state st ->
  let st' := new (disk (savePositions now st)) givebackPct balance in
  positions st' = positions st
  /\ closedPositions st' = closedPositions st
  /\ activityFeed st' = [].
Proof.
  intros Hkeys _. cbv zeta. unfold new, loadPositions. simpl.
  split; [by apply load_values|]. by split.
Qed.

Lemma X12_reload_round_trip_witness :
  positions (new (disk (savePositions 7 uw_991)) (Fin (1 # 2)) (Fin 1000))
  = positions uw_991.
Proof.
  refine (proj1 (X12_reload_round_trip 7 (Fin (1 # 2)) (Fin 1000) uw_991 _ _)).
  - exact (fun k p H =>
             proj1 (proj1 (run_well_formed
                             [OpAddPosition 0 uw (Fin 100) (Fin 10) (Fin 95)
                                (Fin 110) ai (Fin 0) moderate (Fin (8 # 1000));
                              OpUpdatePosition uw (Fin (991 # 10))]
                             fresh (fresh_well_formed _ _)) k p H)).
  - split; [|constructor]. intros k p.
    change (positions uw_991) with
      (<[uw := refreshed
                 (mkPosition uw (Fin 100) (Fin 10) 0 (Fin 95) (Fin 110)
                    [] (Fin 10) 0 (Fin 0) (Fin 0) (Fin 0) (Fin (8 # 1000))
                    (Fin 0) [] (Fin 0) moderate open None None None)
                 (Fin (991 # 10))]> (∅ : gmap string Position)).
    intros [[_ <-]|[_ H]]%lookup_insert_Some; [|by rewrite lookup_empty in H].
    vm_compute. repeat split; constructor.
Defined.

End Reload.

(* ------------------------------------------------------------------ *)
(** ** Performance statistics over finite profits *)

Section PerformanceInvariants.

Lemma or_zero_not_nan (x : JS.num) : JS.isNaN (JS.or_zero x) = false.
Proof.
  unfold JS.or_zero. destruct x; simpl; try done.
  by destruct (Qeq_bool q 0).
Qed.

Lemma add_not_negative (x y : JS.num) :
  not_negative x -> not_negative y -> not_negative (x + y).
Proof.
  unfold not_negative. destruct x, y; simpl; try done.
  intros Hx Hy. apply Qle_bool_iff in Hx, Hy. apply Qle_bool_iff. lra.
Qed.

Lemma abs_not_negative (x : JS.num) :
  JS.isNaN x = false -> not_negative (JS.abs x).
Proof.
  unfold not_negative. destruct x; simpl; try done.
  intros _. apply Qle_bool_iff, Qabs_nonneg.
Qed.

Lemma above_not_negative (x y : JS.num) :
  not_negative x -> (y >? x) = true -> not_negative y.
Proof.
  unfold not_negative, JS.gtb. intros Hx Hy.
  eapply leb_trans; [exact Hx|by apply ltb_leb].
Qed.

Lemma not_negative_not_below (x : JS.num) :
  not_negative x -> (x <? Fin 0) = false.
Proof. apply leb_not_ltb. Qed.

Lemma div_not_negative (x y : JS.num) :
  not_negative x -> (y >? Fin 0) = true ->
  (x / y <? Fin 0) = false
  /\ (JS.isFinite x = true \/ JS.isFinite y = true -> not_negative (x / y)).
Proof.
  unfold not_negative, JS.gtb. destruct x as [a| | |], y as [b| | |];
    simpl; try done.
  - intros Ha Hb. apply Qle_bool_iff in Ha. apply Qltb_true in Hb.
    destruct (Qeq_bool b 0) eqn:E; [apply Qeq_bool_iff in E; lra|].
    pose proof (div_nonneg a b Ha Hb) as Hq.
    split; [by apply Qltb_false|]. intros _. by apply Qle_bool_iff.
  - intros _ Hb. apply Qltb_true in Hb.
    replace (Qle_bool 0 b) with true
      by (symmetry; apply Qle_bool_iff; lra).
    by split.
  - intros _ _. split; [done|]. by intros [|].
Qed.

Lemma times_100_not_negative (x : JS.num) :
  ((x <? Fin 0) = false -> (x * Fin 100 <? Fin 0) = false)
  /\ (not_negative x -> not_negative (x * Fin 100)).
Proof.
  unfold not_negative. destruct x as [a| | |]; simpl; try done.
  - split.
    + intros H. apply Qltb_false in H. apply Qltb_false. lra.
    + intros H. apply Qle_bool_iff in H. apply Qle_bool_iff. lra.
Qed.

(** One round of the loop keeps the invariant, whatever the closed position
    holds. *)
Lemma perf_step_invariant (n : nat) (acc : PerfLoop) (p : Position) :
  perf_invariant n acc -> perf_invariant (S n) (perf_step acc p).
Proof.
  intros (Htp & Htl & Hmd & Hn).
  unfold perf_step. cbv zeta.
  pose proof (or_zero_not_nan (currentProfit p)) as Hnan.
  set (profit := JS.or_zero (currentProfit p)) in *.
  unfold perf_invariant.
  cbn [loopTotalProfit loopTotalLoss loopMaxDrawdown loopWinningTrades
       loopLosingTrades].
  split; [|split; [|split]].
  - destruct (profit >? Fin 0) eqn:E; [|exact Htp].
    apply add_not_negative; [exact Htp|].
    unfold not_negative. by apply ltb_leb.
  - destruct (profit >? Fin 0); [exact Htl|].
    apply add_not_negative; [exact Htl|by apply abs_not_negative].
  - match goal with
    | |- not_negative (if ?d >? ?m then _ else _) =>
        destruct (d >? m) eqn:E; [|exact Hmd]
    end.
    by eapply above_not_negative.
  - destruct (profit >? Fin 0); lia.
Qed.

Lemma perf_loop_invariant (cs : list Position) :
  perf_invariant (length cs) (perf_loop cs).
Proof.
  induction cs as [|p cs IH] using rev_ind.
  - by repeat split.
  - rewrite perf_loop_snoc, length_app. simpl.
    replace (length cs + 1)%nat with (S (length cs)) by lia.
    by apply perf_step_invariant.
Qed.

(** X13: for any closed history, whatever numbers it holds (an undefined or
    [NaN] profit counts as 0), [getPerformanceStats] returns:
    winningTrades + losingTrades = totalTrades = the number of closed
    positions; totalProfit, totalLoss and maxDrawdown that are [>= 0]
    (numbers or [+Infinity], never [NaN]); a finite winRate within
    [0,100]; a profitFactor and a maxDrawdownPct that are never negative,
    and that are [>= 0] (not [NaN]) when one of the two numbers they divide
    is finite. *)
Theorem X13_performance_stats (st : t) :
  let s := getPerformanceStats st in
  (winningTrades s + losingTrades s = totalTrades s)%nat
  /\ totalTrades s = length (closedPositions st)
  /\ not_negative (totalProfit s)
  /\ not_negative (totalLoss s)
  /\ not_negative (maxDrawdown s)
  /\ (exists wr, winRate s = Fin wr /\ (0 <= wr <= 100)%Q)
  /\ (profitFactor s <? Fin 0) = false
  /\ (maxDrawdownPct s <? Fin 0) = false
  /\ (JS.isFinite (totalProfit s) = true \/ JS.isFinite (totalLoss s) = true ->
      not_negative (profitFactor s))
  /\ (JS.isFinite (maxDrawdown s) = true
      \/ JS.isFinite (accountBalance st) = true ->
      not_negative (maxDrawdownPct s)).
Proof.
  cbv zeta. unfold getPerformanceStats.
  destruct (Nat.eqb_spec (length (closedPositions st)) 0) as [Hlen|Hlen].
  { cbn [winningTrades losingTrades totalTrades totalProfit totalLoss
         maxDrawdown winRate profitFactor maxDrawdownPct].
    split; [done|]. split; [done|]. do 3 (split; [reflexivity|]).
    split; [exists 0%Q; split; [reflexivity|lra]|].
    split; [reflexivity|]. split; [reflexivity|].
    split; intros _; reflexivity. }
  destruct (perf_loop_invariant (closedPositions st))
    as (Htp & Htl & Hmd & Hn).
  set (acc := perf_loop (closedPositions st)) in *.
  set (n := length (closedPositions st)) in *.
  cbv zeta.
  cbn [winningTrades losingTrades totalTrades totalProfit totalLoss
       maxDrawdown winRate profitFactor maxDrawdownPct].
  split; [exact Hn|]. split; [reflexivity|].
  split; [exact Htp|]. split; [exact Htl|]. split; [exact Hmd|].
  split.
  { destruct (Nat.ltb_spec 0 n) as [Hpos|]; [|lia].
    pose proof (length_positive n Hpos) as HN.
    unfold JS.of_nat, JS.of_Z.
    rewrite (div_by_positive _ _ HN). cbn [JS.mul].
    eexists. split; [reflexivity|].
    assert (Hw : (0 <= inject_Z (Z.of_nat (loopWinningTrades acc))
                  <= inject_Z (Z.of_nat n))%Q).
    { split; [change 0%Q with (inject_Z 0)|]; rewrite <- Zle_Qle; lia. }
    pose proof (div_nonneg _ _ (proj1 Hw) HN) as H0.
    assert (H1 : (inject_Z (Z.of_nat (loopWinningTrades acc))
                  / inject_Z (Z.of_nat n) <= 1)%Q).
    { apply Qle_shift_div_r; [exact HN|]. lra. }
    split; lra. }
  assert (Hpf : (loopTotalLoss acc >? Fin 0) = false ->
                not_negative
                  (if loopTotalProfit acc >? Fin 0 then JS.PInf else Fin 0)).
  { intros _. by destruct (loopTotalProfit acc >? Fin 0). }
  assert (Hpct : forall x, ((x <? Fin 0) = false ->
                            (x * Fin 100 <? Fin 0) = false)
                           /\ (not_negative x -> not_negative (x * Fin 100)))
    by apply times_100_not_negative.
  split.
  { destruct (loopTotalLoss acc >? Fin 0) eqn:E.
    - by apply (div_not_negative _ _ Htp E).
    - by apply not_negative_not_below, Hpf. }
  split.
  { destruct (accountBalance st >? Fin 0) eqn:E; [|reflexivity].
    by apply Hpct, (div_not_negative _ _ Hmd E). }
  split.
  { intros Hfin. destruct (loopTotalLoss acc >? Fin 0) eqn:E.
    - by apply (div_not_negative _ _ Htp E).
    - by apply Hpf. }
  intros Hfin. destruct (accountBalance st >? Fin 0) eqn:E; [|reflexivity].
  by apply Hpct, (div_not_negative _ _ Hmd E).
Qed.

End PerformanceInvariants.

(* ------------------------------------------------------------------ *)
(** ** How the exit checks relate *)

Section ExitChecks.
Import Scenario.

Lemma peak_pct_of_nonpositive_peak (p : Position) :
  finite_basis p ->
  JS.isNaN (peakProfit p) = false ->
  (peakProfit p >? Fin 0) = false ->
  (peakProfitPctOf p <? Fin (1 # 2)) = true.
Proof.
  intros Hb Hnan Hpeak. unfold peakProfitPctOf.
  destruct (totalCostOf_finite p Hb) as [c ->].
  unfold JS.gtb in *. cbn [JS.ltb].
  destruct (JS.Qltb 0 c) eqn:Hc; [|reflexivity].
  apply Qltb_true in Hc.
  destruct (peakProfit p) as [k| | |]; simpl in Hnan, Hpeak; try discriminate.
  - apply Qltb_false in Hpeak. rewrite (div_by_positive k c Hc).
    cbn [JS.mul JS.ltb]. apply Qltb_true.
    assert (Hdiv : (k / c <= 0)%Q).
    { apply Qle_shift_div_r; [done|]. lra. }
    lra.
  - simpl. destruct (JS.Qltb c 0) eqn:E; [|reflexivity].
    apply Qltb_true in E. lra.
Qed.

(** X14: the underwater exit excludes the other two profit checks.  In one
    state, when [checkUnderwaterExit] answers [true] for a pair,
    [checkErosionCap] answers [false] for it, and so does
    [checkProfitableCollapse] when the position has a finite cost basis and
    a peakProfit that is a number. *)
Theorem X14_underwater_excludes_profit_checks (now now' : Z) (pair : string)
    (config : Config) (st : t) (p : Position) :
  positions st !! pair = Some p ->
  fst (checkUnderwaterExit now pair config st) = true ->
  fst (checkErosionCap now' pair st) = false
  /\ (finite_basis p -> JS.isNaN (peakProfit p) = false ->
      fst (checkProfitableCollapse now' pair st) = false).
Proof.
  intros Hp Hunder.
  assert (Hpeak : (peakProfit p >? Fin 0) = false).
  { unfold checkUnderwaterExit in Hunder. rewrite Hp in Hunder.
    by destruct (peakProfit p >? Fin 0). }
  split.
  - unfold checkErosionCap. rewrite Hp.
    destruct (peakProfit p <=? Fin 0) eqn:Hle; [reflexivity|].
    assert (Hnan : peakProfit p = JS.NaN).
    { unfold JS.gtb in Hpeak.
      destruct (peakProfit p) as [k| | |]; simpl in *; try done.
      apply Qltb_false in Hpeak. apply Qle_bool_iff in Hpeak. congruence. }
    rewrite Hnan.
    destruct (peakProfitPctOf p <? Fin 1); [reflexivity|].
    by destruct (erosionUsed p), (profitLockGivebackPct st).
  - intros Hb Hnan. unfold checkProfitableCollapse. rewrite Hp.
    by rewrite (peak_pct_of_nonpositive_peak p Hb Hnan Hpeak).
Qed.

Lemma X14_underwater_excludes_profit_checks_witness :
  fst (checkErosionCap 1 uw uw_991) = false.
Proof.
  refine (proj1 (X14_underwater_excludes_profit_checks (minutes 20) 1 uw
                   uw_config uw_991
                   (refreshed
                      (mkPosition uw (Fin 100) (Fin 10) 0 (Fin 95) (Fin 110)
                         [] (Fin 10) 0 (Fin 0) (Fin 0) (Fin 0)
                         (Fin (8 # 1000)) (Fin 0) [] (Fin 0) moderate open
                         None None None)
                      (Fin (991 # 10)))
                   _ _)).
  - vm_compute. reflexivity.
  - vm_compute. reflexivity.
Defined.

(** X15: a collapse of a real peak also trips the erosion cap.  For a
    position with a finite cost basis, finite peak and current profit,
    erosionUsed equal to peakProfit - currentProfit (as every refresh leaves
    it) and a peak of at least 1% of the cost basis, and a configured
    max-giveback fraction below 1: when [checkProfitableCollapse] answers
    [true], so does [checkErosionCap]. *)
Theorem X15_collapse_trips_erosion_cap (now now' : Z) (pair : string)
    (st : t) (p : Position) :
  positions st !! pair = Some p ->
  finite_basis p ->
  JS.isFinite (peakProfit p) = true ->
  JS.isFinite (currentProfit p) = true ->
  JS.same (erosionUsed p) (peakProfit p - currentProfit p) ->
  (peakProfitPctOf p <? Fin 1) = false ->
  (profitLockGivebackPct st <? Fin 1) = true ->
  fst (checkProfitableCollapse now pair st) = true ->
  fst (checkErosionCap now' pair st) = true.
Proof.
  intros Hp Hb Hpeak Hcur Hero Hpct Hg Hcollapse.
  assert (Hnan : JS.isNaN (currentProfit p) = false)
    by (by destruct (currentProfit p)).
  apply (checkProfitableCollapse_iff now pair st p Hp Hb Hpeak Hnan)
    in Hcollapse as (Hcost & Hhalf & Hneg).
  destruct (totalCostOf_finite p Hb) as [c Hc].
  apply isFinite_inv in Hpeak as [k Hk]. apply isFinite_inv in Hcur as [q Hq].
  rewrite Hc in Hcost, Hhalf. rewrite Hk in Hhalf. rewrite Hq in Hneg.
  rewrite Hk, Hq in Hero.
  unfold JS.gtb in Hcost. simpl in Hcost, Hhalf, Hneg.
  apply Qltb_true in Hcost, Hneg. apply Qle_bool_iff in Hhalf.
  assert (Hkpos : (0 < k)%Q) by lra.
  destruct (erosionUsed p) as [e| | |] eqn:He; simpl in Hero; try done.
  unfold checkErosionCap. rewrite Hp, Hk, He, Hpct.
  replace (Fin k <=? Fin 0) with false
    by (symmetry; simpl; destruct (Qle_bool k 0) eqn:E; [|done];
        apply Qle_bool_iff in E; lra).
  rewrite (div_by_positive e k Hkpos).
  destruct (profitLockGivebackPct st) as [g| | |]; simpl in Hg; try done.
  apply Qltb_true in Hg.
  assert (Hratio : (1 < e / k)%Q).
  { apply Qlt_shift_div_l; [done|]. lra. }
  unfold JS.gtb. simpl.
  replace (JS.Qltb g (e / k)) with true
    by (symmetry; apply Qltb_true; lra).
  reflexivity.
Qed.

Lemma X15_collapse_trips_erosion_cap_witness :
  fst (checkErosionCap 2 uw (updatePosition uw (Fin 99) uw_101)) = true.
Proof.
  refine (X15_collapse_trips_erosion_cap 1 2 uw
            (updatePosition uw (Fin 99) uw_101)
            (refreshed
               (refreshed
                  (mkPosition uw (Fin 100) (Fin 10) 0 (Fin 95) (Fin 110)
                     [] (Fin 10) 0 (Fin 0) (Fin 0) (Fin 0)
                     (Fin (8 # 1000)) (Fin 0) [] (Fin 0) moderate open
                     None None None)
                  (Fin 101))
               (Fin 99))
            _ _ _ _ _ _ _ _).
  - vm_compute. reflexivity.
  - split; [reflexivity|]. split; [reflexivity|]. constructor.
  - reflexivity.
  - reflexivity.
  - vm_compute. reflexivity.
  - vm_compute. reflexivity.
  - reflexivity.
  - vm_compute. reflexivity.
Defined.

End ExitChecks.

(* ------------------------------------------------------------------ *)
(** ** The pyramid gates and the add *)

Section PyramidGates.
Import Scenario.

Lemma ordered_levels_cases (p : Position) :
  ordered_levels p ->
  (pyramidLevelsActivated p = 0%nat /\ pyramidLevels p = [])
  \/ (pyramidLevelsActivated p = 1%nat
      /\ map PyramidLevel.level (pyramidLevels p) = [PyramidLevel.L1])
  \/ (pyramidLevelsActivated p = 2%nat
      /\ map PyramidLevel.level (pyramidLevels p)
         = [PyramidLevel.L1; PyramidLevel.L2]).
Proof.
  intros [Hle Hmap].
  destruct (pyramidLevelsActivated p) as [|[|[|n]]]; simpl in Hmap; try lia.
  - left. split; [done|]. by destruct (pyramidLevels p).
  - right. left. by split.
  - right. right. by split.
Qed.

Lemma existsb_level (level : PyramidLevel.Level) (levels : list PyramidLevel.t) :
  existsb (fun l => PyramidLevel.Level_eqb (PyramidLevel.level l) level) levels
  = existsb (fun x => PyramidLevel.Level_eqb x level)
            (map PyramidLevel.level levels).
Proof. induction levels as [|l levels IH]; simpl; [done|]. by rewrite IH. Qed.

(** X16: the advisory gates keep the levels in order.  For a position whose
    levels are in order (none, level 1, or level 1 then level 2, matching
    the counter): when [isReadyForL1] answers [true], [addPyramidLevel] for
    level 1 succeeds and leaves exactly the level-1 entry, after which
    [isReadyForL1] answers [false] for every profit and threshold; when
    [isReadyForL2] answers [true], [addPyramidLevel] for level 2 succeeds and
    leaves level 1 then level 2, after which both gates answer [false] and
    every further [addPyramidLevel] is refused. *)
Theorem X16_gated_adds_keep_order (now : Z) (pair : string)
    (profit trigger entryPrice volume aiConfidence : JS.num) (st : t)
    (p : Position) :
  positions st !! pair = Some p ->
  ordered_levels p ->
  (isReadyForL1 st pair profit trigger = true ->
   let r := addPyramidLevel now pair PyramidLevel.L1 entryPrice volume
                            aiConfidence st in
   fst r = true
   /\ exists p',
        positions (snd r) !! pair = Some p'
        /\ ordered_levels p'
        /\ map PyramidLevel.level (pyramidLevels p') = [PyramidLevel.L1]
        /\ forall x y, isReadyForL1 (snd r) pair x y = false)
  /\ (isReadyForL2 st pair profit trigger = true ->
      let r := addPyramidLevel now pair PyramidLevel.L2 entryPrice volume
                               aiConfidence st in
      fst r = true
      /\ exists p',
           positions (snd r) !! pair = Some p'
           /\ ordered_levels p'
           /\ map PyramidLevel.level (pyramidLevels p')
              = [PyramidLevel.L1; PyramidLevel.L2]
           /\ (forall x y, isReadyForL1 (snd r) pair x y = false)
           /\ (forall x y, isReadyForL2 (snd r) pair x y = false)
           /\ forall now' level e v c,
                addPyramidLevel now' pair level e v c (snd r)
                = (false, snd r)).
Proof.
  intros Hp Hord. split.
  - intros Hready. cbv zeta. unfold isReadyForL1 in Hready. rewrite Hp in Hready.
    destruct (ordered_levels_cases p Hord) as [[Hc Hl]|[[Hc _]|[Hc _]]];
      rewrite Hc in Hready; try discriminate.
    destruct (addPyramidLevel_accepted now pair PyramidLevel.L1 entryPrice
                volume aiConfidence st p Hp) as [Hr Hq];
      [lia|by rewrite Hl|].
    split; [exact Hr|]. eexists. split; [exact Hq|].
    rewrite Hl, Hc. simpl.
    split; [split; [simpl; lia|reflexivity]|]. split; [reflexivity|].
    intros x y. unfold isReadyForL1. by rewrite Hq.
  - intros Hready. cbv zeta. unfold isReadyForL2 in Hready. rewrite Hp in Hready.
    destruct (ordered_levels_cases p Hord) as [[Hc Hl]|[[Hc Hl]|[Hc _]]];
      rewrite Hc in Hready; try discriminate.
    destruct (addPyramidLevel_accepted now pair PyramidLevel.L2 entryPrice
                volume aiConfidence st p Hp) as [Hr Hq];
      [lia|by rewrite existsb_level, Hl|].
    rewrite Hc in Hq.
    split; [exact Hr|]. eexists. split; [exact Hq|].
    assert (Hmap : map PyramidLevel.level
                     (pyramidLevels p
                        ++ [new_level now PyramidLevel.L2 entryPrice volume
                                      aiConfidence])
                   = [PyramidLevel.L1; PyramidLevel.L2])
      by (rewrite map_app, Hl; reflexivity).
    split; [split; [simpl; lia|exact Hmap]|].
    split; [exact Hmap|].
    split; [intros x y; unfold isReadyForL1; by rewrite Hq|].
    split; [intros x y; unfold isReadyForL2; by rewrite Hq|].
    intros now' level e v c.
    set (s := snd (addPyramidLevel now pair PyramidLevel.L2 entryPrice volume
                                   aiConfidence st)) in *.
    unfold addPyramidLevel. by rewrite Hq.
Qed.

Lemma X16_gated_adds_keep_order_witness :
  fst (addPyramidLevel 5 uw PyramidLevel.L1 (Fin 105) (Fin 3) (Fin 90) uw_open)
  = true.
Proof.
  refine (proj1 (proj1 (X16_gated_adds_keep_order 5 uw (Fin (5 # 100))
                          (Fin (45 # 1000)) (Fin 105) (Fin 3) (Fin 90) uw_open
                          (mkPosition uw (Fin 100) (Fin 10) 0 (Fin 95)
                             (Fin 110) [] (Fin 10) 0 (Fin 0) (Fin 0) (Fin 0)
                             (Fin (8 # 1000)) (Fin 0) [] (Fin 0) moderate open
                             None None None)
                          _ _) _)).
  - vm_compute. reflexivity.
  - split; [simpl; lia|reflexivity].
  - vm_compute. reflexivity.
Defined.

End PyramidGates.

(* ------------------------------------------------------------------ *)
(** ** The initial entry is fixed *)

Section EntryFixed.
Import Scenario.

(** X17: the fields of the initial entry never change while a position is
    open: if a pair has an open position before and after a call, its pair,
    entryPrice, volume, entryTime, stopLoss and profitTarget are the same,
    and so are the answers of [checkStopLoss] and [checkProfitTarget] at any
    price. *)
Theorem X17_entry_fields_are_fixed (op : Op) (k : string) (st : t)
    (p p' : Position) :
  positions st !! k = Some p ->
  positions (step op st) !! k = Some p' ->
  entry_of p' = entry_of p
  /\ forall price,
       checkStopLoss (step op st) k price = checkStopLoss st k price
       /\ checkProfitTarget (step op st) k price = checkProfitTarget st k price.
Proof.
  intros Hp Hp'.
  assert (Hentry : entry_of p' = entry_of p).
  { destruct op as [now pr e v sl pt ai adx rg cap|pr price|now pr level e v c
                   |now pr|now pr cfg|now pr|now pr price reason|bal|];
      simpl in Hp'.
    - destruct (addPosition_fields now pr e v sl pt ai adx rg cap st)
        as [_ [Heq|[Hnone Heq]]]; rewrite Heq in Hp'; [congruence|].
      apply lookup_insert_Some in Hp' as [[<- _]|[_ H]]; congruence.
    - unfold updatePosition in Hp'.
      destruct (positions st !! pr) as [q|] eqn:Hq; [|congruence].
      simpl in Hp'. apply lookup_insert_Some in Hp' as [[<- <-]|[_ H]];
        [|congruence].
      destruct (refreshed_is_set_profit q price) as (a & b & c & d & ->).
      by replace q with p by congruence.
    - destruct (addPyramidLevel_fields now pr level e v c st)
        as [_ [Heq|(q & Hq & _ & _ & Heq)]]; rewrite Heq in Hp';
        [congruence|].
      apply lookup_insert_Some in Hp' as [[<- <-]|[_ H]]; [|congruence].
      by replace q with p by congruence.
    - destruct (checkErosionCap_effect now pr st)
        as [[_ Heq]|[_ (a & _ & Heq)]]; rewrite Heq in Hp'; [congruence|].
      rewrite (proj1 (logActivity_positions a st)) in Hp'. congruence.
    - destruct (checkUnderwaterExit_effect now pr cfg st)
        as [[_ Heq]|[_ (a & _ & Heq)]]; rewrite Heq in Hp'; [congruence|].
      rewrite (proj1 (logActivity_positions a st)) in Hp'. congruence.
    - destruct (checkProfitableCollapse_effect now pr st)
        as [[_ Heq]|[_ (a & _ & Heq)]]; rewrite Heq in Hp'; [congruence|].
      rewrite (proj1 (logActivity_positions a st)) in Hp'. congruence.
    - destruct (closePosition_fields now pr price reason st)
        as [[Heq _]|(q & _ & Heq & _)]; rewrite Heq in Hp'; [congruence|].
      apply lookup_delete_Some in Hp' as [_ H]. congruence.
    - congruence.
    - by rewrite lookup_empty in Hp'. }
  split; [exact Hentry|]. intros price.
  unfold checkStopLoss, checkProfitTarget. rewrite Hp, Hp'.
  unfold entry_of in Hentry. by inversion Hentry.
Qed.

Lemma X17_entry_fields_are_fixed_witness :
  entry_of
    (refreshed
       (mkPosition uw (Fin 100) (Fin 10) 0 (Fin 95) (Fin 110) [] (Fin 10) 0
          (Fin 0) (Fin 0) (Fin 0) (Fin (8 # 1000)) (Fin 0) [] (Fin 0) moderate
          open None None None)
       (Fin (991 # 10)))
  = entry_of
      (mkPosition uw (Fin 100) (Fin 10) 0 (Fin 95) (Fin 110) [] (Fin 10) 0
         (Fin 0) (Fin 0) (Fin 0) (Fin (8 # 1000)) (Fin 0) [] (Fin 0) moderate
         open None None None).
Proof.
  refine (proj1 (X17_entry_fields_are_fixed
                   (OpUpdatePosition uw (Fin (991 # 10))) uw uw_open _ _ _ _)).
  - vm_compute. reflexivity.
  - vm_compute. reflexivity.
Defined.

End EntryFixed.

(* ------------------------------------------------------------------ *)
(** ** Which indicators can throw *)

Section IndicatorExceptions.
Import IndicatorCalculator.

Lemma reduce1_ok (a : list JS.num) :
  a <> [] -> exists s, reduce1 a = Ok s.
Proof. destruct a; [done|]. intros _. by eexists. Qed.

Lemma calculateEMA_ok (closes : list JS.num) (period : nat) :
  (0 < period)%nat -> exists ema, calculateEMA closes period = Ok ema.
Proof.
  intros Hp. unfold calculateEMA.
  destruct closes as [|c closes]; [by eexists|]. cbn [length Nat.eqb].
  destruct (S (length closes) <=? period)%nat; [by eexists|].
  destruct period as [|period]; [lia|]. simpl. by eexists.
Qed.

Lemma calculateEMA_throws (closes : list JS.num) (period : nat) :
  throws (calculateEMA closes period) <-> period = 0%nat /\ closes <> [].
Proof.
  split.
  - intros [e He]. destruct period as [|period].
    + split; [done|]. intros ->. discriminate.
    + destruct (calculateEMA_ok closes (S period)) as [x Hx]; [lia|].
      congruence.
  - intros [-> Hne]. destruct closes as [|c closes]; [done|].
    by exists TypeError.
Qed.

Lemma slice_last_nonempty {A : Type} (n : nat) (a : list A) :
  (0 < n)%nat -> a <> [] -> slice_last n a <> [].
Proof.
  intros Hn Ha. unfold slice_last.
  destruct (Nat.eqb_spec n 0); [lia|].
  intros Hnil. apply (f_equal (@length A)) in Hnil.
  rewrite length_skipn in Hnil. simpl in Hnil.
  destruct a; [done|]. simpl in Hnil. lia.
Qed.

Lemma calculateSMA_throws (values : list JS.num) (period : nat) :
  throws (calculateSMA values period) <-> period = 0%nat /\ values = [].
Proof.
  unfold calculateSMA. split.
  - intros [e He].
    destruct (length values <? period)%nat eqn:Hlt; [discriminate|].
    apply Nat.ltb_ge in Hlt.
    destruct period as [|period].
    + split; [done|]. destruct values; [done|discriminate].
    + exfalso.
      destruct (reduce1_ok (slice_last (S period) values)) as [s Hs].
      { apply slice_last_nonempty; [lia|]. intros ->. simpl in Hlt. lia. }
      rewrite Hs in He. discriminate.
  - intros [-> ->]. by exists TypeError.
Qed.

Lemma calculateVolumeRatio_ok (volumes : list JS.num) (period : nat) :
  exists r, calculateVolumeRatio volumes period = Ok r.
Proof.
  unfold calculateVolumeRatio.
  destruct volumes as [|v volumes]; [by eexists|]. cbn [length Nat.eqb].
  destruct (calculateSMA (v :: volumes) (Nat.min period (S (length volumes))))
    as [avg|e] eqn:Hsma; [by eexists|].
  exfalso.
  destruct (proj1 (calculateSMA_throws _ _) (ex_intro _ e Hsma)) as [_ H].
  discriminate.
Qed.

Lemma macd_values_ok (closes : list JS.num) (fast slow : nat) (ks : list nat) :
  (0 < fast)%nat -> (0 < slow)%nat ->
  exists vs, macd_values closes fast slow ks = Ok vs /\ length vs = length ks.
Proof.
  intros Hf Hs. induction ks as [|k ks (vs & IH & Hlen)]; [by exists []|].
  simpl.
  destruct (calculateEMA_ok (firstn k closes) fast Hf) as [a ->].
  destruct (calculateEMA_ok (firstn k closes) slow Hs) as [b ->].
  simpl. rewrite IH. simpl. eexists. split; [reflexivity|]. simpl. by rewrite Hlen.
Qed.

Lemma calculateMACD_ok (closes : list JS.num) (fast slow signal : nat) :
  (0 < fast)%nat -> (0 < slow)%nat -> (0 < signal)%nat ->
  exists m, calculateMACD closes fast slow signal = Ok m.
Proof.
  intros Hf Hs Hg. unfold calculateMACD.
  destruct (length closes <? slow + signal - 1)%nat; [by eexists|].
  destruct (calculateEMA_ok closes fast Hf) as [a ->].
  destruct (calculateEMA_ok closes slow Hs) as [b ->]. simpl.
  destruct (macd_values_ok closes fast slow
              (seq slow (S (length closes) - slow)) Hf Hs) as (vs & -> & _).
  simpl. destruct (calculateEMA_ok vs signal Hg) as [c ->]. by eexists.
Qed.

(** X18: which indicators can throw.  [calculateEMA] throws (the
    [TypeError] of [reduce] on an empty array) exactly when its period is 0
    and it is given at least one value; [calculateSMA] throws exactly when
    its period is 0 and it is given no value; [calculateMACD] never throws
    when its three periods are at least 1; [calculateVolumeRatio] and
    [calculateAllIndicators] never throw, on any input. *)
Theorem X18_indicator_exceptions :
  (forall closes period,
     throws (calculateEMA closes period) <-> period = 0%nat /\ closes <> [])
  /\ (forall values period,
        throws (calculateSMA values period) <-> period = 0%nat /\ values = [])
  /\ (forall closes fast slow signal,
        (0 < fast)%nat -> (0 < slow)%nat -> (0 < signal)%nat ->
        exists m, calculateMACD closes fast slow signal = Ok m)
  /\ (forall volumes period,
        exists r, calculateVolumeRatio volumes period = Ok r)
  /\ (forall candles, exists ind, calculateAllIndicators candles = Ok ind).
Proof.
  split; [exact calculateEMA_throws|].
  split; [exact calculateSMA_throws|].
  split; [exact calculateMACD_ok|].
  split; [exact calculateVolumeRatio_ok|].
  intros candles. unfold calculateAllIndicators.
  destruct (length candles =? 0)%nat; [by eexists|]. cbv zeta.
  destruct (calculateMACD_ok (map close candles) 12 26 9) as [m ->]; [lia..|].
  simpl.
  destruct (calculateVolumeRatio_ok (map volume candles) 20) as [r ->]. simpl.
  destruct (calculateEMA_ok (map close candles) 200) as [e ->]; [lia|].
  by eexists.
Qed.

Lemma X18_indicator_exceptions_witness :
  throws (calculateEMA [Fin 1; Fin 2; Fin 3] 0).
Proof.
  refine (proj2 (proj1 X18_indicator_exceptions [Fin 1; Fin 2; Fin 3] 0%nat) _).
  split; [reflexivity|discriminate].
Defined.

End IndicatorExceptions.

(* ------------------------------------------------------------------ *)
(** ** Indicators on short input: the defaults *)

Section Defaults.
Import IndicatorCalculator.

(** X1: the defaults that the indicators return on short input, whatever the
    values are: RSI 50, MACD zeros, ADX 20, momentum 0, volume ratio 1 on no
    volumes, EMA 0 on no values, the all-neutral snapshot of
    [calculateAllIndicators] on no candles; and on 1 to 14 candles
    [calculateAllIndicators] returns (without throwing) a snapshot with rsi
    50, MACD zeros and adx 20. *)
Theorem X1_indicator_defaults :
  (forall closes period,
     (length closes < period + 1)%nat -> calculateRSI closes period = Fin 50)
  /\ (forall closes fast slow signal,
        (length closes < slow + signal - 1)%nat ->
        calculateMACD closes fast slow signal
        = Ok (mkMacd (Fin 0) (Fin 0) (Fin 0)))
  /\ (forall highs lows closes period,
        (length highs < period * 2 + 1)%nat ->
        calculateADX highs lows closes period = Fin 20)
  /\ (forall closes period,
        (length closes < period + 1)%nat ->
        calculateMomentum closes period = Fin 0)
  /\ (forall period, calculateVolumeRatio [] period = Ok (Fin 1))
  /\ (forall period, calculateEMA [] period = Ok (Fin 0))
  /\ calculateAllIndicators []
     = Ok (mkIndicators (Fin 50) (mkMacd (Fin 0) (Fin 0) (Fin 0)) (Fin 20)
             (Fin 1) (Fin 0) (Fin 0) (Fin 0) (Fin 0) (Fin 0))
  /\ (forall candles,
        (0 < length candles <= 14)%nat ->
        exists ind,
          calculateAllIndicators candles = Ok ind
          /\ rsi ind = Fin 50
          /\ macd ind = mkMacd (Fin 0) (Fin 0) (Fin 0)
          /\ adx ind = Fin 20).
Proof.
  assert (Hrsi : forall closes period,
             (length closes < period + 1)%nat ->
             calculateRSI closes period = Fin 50).
  { intros closes period H. unfold calculateRSI.
    by destruct (Nat.ltb_spec (length closes) (period + 1)); [|lia]. }
  assert (Hmacd : forall closes fast slow signal,
             (length closes < slow + signal - 1)%nat ->
             calculateMACD closes fast slow signal
             = Ok (mkMacd (Fin 0) (Fin 0) (Fin 0))).
  { intros closes fast slow signal H. unfold calculateMACD.
    by destruct (Nat.ltb_spec (length closes) (slow + signal - 1)); [|lia]. }
  assert (Hadx : forall highs lows closes period,
             (length highs < period * 2 + 1)%nat ->
             calculateADX highs lows closes period = Fin 20).
  { intros highs lows closes period H. unfold calculateADX.
    by destruct (Nat.ltb_spec (length highs) (period * 2 + 1)); [|lia]. }
  split; [exact Hrsi|]. split; [exact Hmacd|]. split; [exact Hadx|].
  split.
  { intros closes period H. unfold calculateMomentum.
    by destruct (Nat.ltb_spec (length closes) (period + 1)); [|lia]. }
  split; [reflexivity|]. split; [reflexivity|]. split; [reflexivity|].
  intros candles [Hpos Hshort]. unfold calculateAllIndicators.
  destruct (Nat.eqb_spec (length candles) 0) as [|_]; [lia|].
  cbv zeta.
  rewrite Hrsi by (rewrite length_map; lia).
  rewrite Hmacd by (rewrite length_map; lia).
  rewrite Hadx by (rewrite length_map; lia).
  destruct (calculateVolumeRatio_ok (map volume candles) 20) as [vr ->].
  destruct (calculateEMA_ok (map close candles) 200) as [ema ->]; [lia|].
  cbn [bind]. eexists. split; [reflexivity|]. by repeat split.
Qed.

Lemma X1_indicator_defaults_witness :
  calculateMomentum [Fin 10; Fin 11] 4 = Fin 0.
Proof.
  refine (proj1 (proj2 (proj2 (proj2 X1_indicator_defaults)))
            [Fin 10; Fin 11] 4%nat _).
  simpl. lia.
Defined.

End Defaults.

(* ------------------------------------------------------------------ *)
(** ** Arrays of numbers within bounds *)

Section Within.
Import IndicatorCalculator.

Lemma within_get (lo hi : Q) (a : list JS.num) (i : nat) :
  within lo hi a -> (i < length a)%nat ->
  exists q, JS.get a i = Fin q /\ (lo <= q <= hi)%Q.
Proof.
  intros Ha Hi. unfold JS.get.
  apply (proj1 (List.Forall_forall _ a) Ha). by apply nth_In.
Qed.

Lemma within_firstn (lo hi : Q) (n : nat) (a : list JS.num) :
  within lo hi a -> within lo hi (firstn n a).
Proof. apply Forall_take. Qed.

(** A running sum of [n] numbers between [lo] and [hi]. *)
Lemma sum_within (lo hi : Q) (a : list JS.num) (x : Q) :
  within lo hi a ->
  exists s,
    fold_left JS.add a (Fin x) = Fin s
    /\ (x + inject_Z (Z.of_nat (length a)) * lo <= s)%Q
    /\ (s <= x + inject_Z (Z.of_nat (length a)) * hi)%Q.
Proof.
  intros H. revert x. induction H as [|y a (q & -> & Hq) _ IH]; intros x.
  - exists x. split; [reflexivity|].
    change (inject_Z (Z.of_nat (length (@nil JS.num)))) with 0%Q. split; lra.
  - cbn [fold_left JS.add length]. destruct (IH (x + q)%Q) as (s & -> & H1 & H2).
    exists s. split; [done|].
    rewrite Nat2Z.inj_succ, <- Z.add_1_r, inject_Z_plus.
    change (inject_Z 1) with 1%Q. split; lra.
Qed.

End Within.

(* ------------------------------------------------------------------ *)
(** ** Reading the activity feed *)

Section ReadFeed.

Import PositionTracker.

Lemma logActivity_feed_snoc (e : ActivityFeedEntry) (st : t) :
  (0 < maxActivityFeedSize st)%nat ->
  exists older, activityFeed (logActivity e st) = older ++ [e].
Proof.
  intros Hmax. unfold logActivity. cbv zeta.
  pose proof (length_app (activityFeed st) [e]) as Hlen. simpl in Hlen.
  destruct (Nat.ltb_spec (maxActivityFeedSize st)
                         (length (activityFeed st ++ [e]))) as [Hover|Hfit].
  - simpl. unfold slice_last.
    destruct (Nat.eqb_spec (maxActivityFeedSize st) 0) as [|_]; [lia|].
    rewrite skipn_app.
    replace (length (activityFeed st ++ [e]) - maxActivityFeedSize st
             - length (activityFeed st))%nat with 0%nat by lia.
    simpl. by eexists.
  - simpl. by eexists.
Qed.

Lemma rev_slice_last {A : Type} (n : nat) (a : list A) :
  rev (slice_last n a) = if (n =? 0)%nat then rev a else firstn n (rev a).
Proof.
  unfold slice_last. destruct (Nat.eqb_spec n 0) as [|Hn]; [done|].
  rewrite firstn_rev. reflexivity.
Qed.

(** X22: [getActivityFeed] lists the feed newest first: with a positive
    [limit] the first [limit] entries of the reversed feed, and with
    [limit = 0] the whole reversed feed, not an empty list (because
    [slice(-0)] is [slice(0)]); right after [logActivity e], with a positive
    bound on the feed and a positive [limit], the entry [e] is the first one
    listed and at most [limit] entries are listed. *)
Theorem X22_activity_feed_newest_first (e : ActivityFeedEntry) (st : t)
    (limit : nat) :
  (0 < maxActivityFeedSize st)%nat ->
  getActivityFeed st 0 = rev (activityFeed st)
  /\ ((0 < limit)%nat ->
      getActivityFeed st limit = firstn limit (rev (activityFeed st))
      /\ (length (getActivityFeed st limit) <= limit)%nat
      /\ exists older, getActivityFeed (logActivity e st) limit = e :: older).
Proof.
  intros Hmax. unfold getActivityFeed. rewrite !rev_slice_last.
  split; [reflexivity|]. intros Hlimit.
  destruct (Nat.eqb_spec limit 0) as [|_]; [lia|].
  split; [reflexivity|].
  split; [rewrite length_firstn; lia|].
  destruct (logActivity_feed_snoc e st Hmax) as (older & ->).
  rewrite rev_app_distr. simpl.
  destruct limit as [|k]; [lia|]. simpl. by eexists.
Qed.

Lemma X22_activity_feed_newest_first_witness :
  getActivityFeed Scenario.eth_open 0 = rev (activityFeed Scenario.eth_open)
  /\ ((0 < 5)%nat ->
      getActivityFeed Scenario.eth_open 5
      = firstn 5 (rev (activityFeed Scenario.eth_open))
      /\ (length (getActivityFeed Scenario.eth_open 5) <= 5)%nat
      /\ exists older,
           getActivityFeed
             (logActivity (mkActivity 1 "ETH/USD" ENTRY []) Scenario.eth_open) 5
           = mkActivity 1 "ETH/USD" ENTRY [] :: older).
Proof.
  refine (X22_activity_feed_newest_first (mkActivity 1 "ETH/USD" ENTRY [])
            Scenario.eth_open 5 _).
  vm_compute. lia.
Defined.

End ReadFeed.

(* ------------------------------------------------------------------ *)
(** ** ADX of a market that does not move *)

Section FlatMarket.

Import IndicatorCalculator.

Lemma get_repeat (x : JS.num) (n i : nat) :
  (i < n)%nat -> JS.get (repeat x n) i = x.
Proof.
  intros Hi. unfold JS.get. by apply nth_repeat_lt.
Qed.

Lemma adx_bar_flat (c : Q) (n i : nat) :
  (1 <= i < n)%nat ->
  exists q,
    adx_bar (repeat (Fin c) n) (repeat (Fin c) n) (repeat (Fin c) n) i
    = (Fin q, Fin 0, Fin 0) /\ (q == 0)%Q.
Proof.
  intros Hi. unfold adx_bar.
  rewrite !get_repeat by lia. cbv zeta.
  assert (Hlt : (Fin c - Fin c >? Fin c - Fin c) = false).
  { simpl. apply Qltb_false. lra. }
  rewrite Hlt. cbn [andb].
  assert (Habs : (Qabs (c + - c) == 0)%Q).
  { assert (Hz : (c + - c == 0)%Q) by lra. rewrite Hz. reflexivity. }
  unfold JS.sub. cbn [JS.add JS.neg JS.abs].
  unfold JS.max. cbn [JS.isNaN orb JS.ltb].
  destruct (JS.Qltb (c + - c) (Qabs (c + - c)));
    cbn [JS.isNaN orb JS.ltb];
    match goal with
    | |- context [JS.Qltb ?a ?b] => destruct (JS.Qltb a b)
    end;
    eexists; (split; [reflexivity|]); try exact Habs; lra.
Qed.

Lemma adx_step_no_range (period : nat) (trueRanges plusDMs minusDMs : list JS.num)
    (st : AdxState) (i : nat) :
  (0 < period)%nat ->
  within 0 0 trueRanges ->
  (i < length trueRanges)%nat ->
  no_range st ->
  no_range (adx_step period trueRanges plusDMs minusDMs st i).
Proof.
  intros Hp Hw Hi ((t & Ht & Ht0) & Hdx).
  destruct (within_get 0 0 trueRanges i Hw Hi) as (q & Hq & Hq0).
  unfold adx_step. cbv zeta. rewrite Ht, Hq.
  pose proof (of_nat_positive period Hp) as Hp0.
  unfold JS.of_nat, JS.of_Z. set (p := inject_Z (Z.of_nat period)) in *.
  assert (Hdiv : Fin t / Fin p = Fin (t / p)).
  { simpl. destruct (Qeq_bool p 0) eqn:E; [|reflexivity].
    apply Qeq_bool_iff in E. lra. }
  rewrite Hdiv.
  assert (Hzero : (t + - (t / p) + q == 0)%Q).
  { assert (Hq' : (q == 0)%Q) by lra. rewrite Ht0, Hq'. field. lra. }
  assert (Heq : (Fin t - Fin (t / p) + Fin q === Fin 0) = true).
  { simpl. by apply Qeq_bool_iff. }
  rewrite Heq. split; [|exact Hdx].
  simpl. by eexists.
Qed.

(** X23: on a market that does not move (every high, low and close the same
    finite number) [calculateADX] returns the default 20 for any positive
    period and any number of bars: every smoothed true range is 0, every
    round of the loop is skipped, and no DX value is ever recorded. *)
Theorem X23_adx_of_flat_market (c : Q) (n period : nat) :
  (0 < period)%nat ->
  calculateADX (repeat (Fin c) n) (repeat (Fin c) n) (repeat (Fin c) n) period
  = Fin 20.
Proof.
  intros Hp. unfold calculateADX.
  destruct (length (repeat (Fin c) n) <? period * 2 + 1)%nat; [reflexivity|].
  cbv zeta. rewrite repeat_length.
  set (bars := map _ (seq 1 (n - 1))).
  assert (Hbars : Forall (fun b => exists q, b = (Fin q, Fin 0, Fin 0)
                                             /\ (q == 0)%Q) bars).
  { subst bars. rewrite List.Forall_map.
    eapply List.Forall_impl; [|apply seq_bounds].
    intros i Hi. cbv beta in Hi. apply adx_bar_flat. lia. }
  assert (Hw : within 0 0 (map (fun b => fst (fst b)) bars)).
  { unfold within. rewrite List.Forall_map.
    eapply List.Forall_impl; [|exact Hbars].
    intros b (q & -> & Hq). exists q. split; [reflexivity|]. simpl. lra. }
  match goal with
  | |- context [fold_left ?f ?l ?a] =>
      assert (Hinv : no_range (fold_left f l a))
  end.
  { apply (fold_left_invariant no_range
             (fun i => (i < length (map (fun b => fst (fst b)) bars))%nat)).
    - eapply List.Forall_impl; [|apply seq_bounds]. intros i Hi. simpl in Hi. lia.
    - intros a i Ha Hi. by apply adx_step_no_range.
    - split; [|reflexivity]. cbn [smoothedTR]. unfold JS.sum.
      destruct (sum_within 0 0 _ 0 (within_firstn 0 0 period _ Hw))
        as (s & -> & Hlo & Hhi).
      exists s. split; [reflexivity|]. lra. }
  destruct Hinv as (_ & ->). reflexivity.
Qed.

Lemma X23_adx_of_flat_market_witness :
  calculateADX (repeat (Fin 100) 40) (repeat (Fin 100) 40)
               (repeat (Fin 100) 40) 14
  = Fin 20.
Proof.
  apply (X23_adx_of_flat_market 100 40 14). lia.
Defined.

End FlatMarket.

(* ------------------------------------------------------------------ *)
(** ** BinanceClient: the retry loop *)

Section Retry.

Import BinanceClient.

Context {T : Type} (now : nat -> Z) (fn : nat -> Outcome T) (retries : Z).

Lemma calls_app (x y : list Event) : calls (x ++ y) = calls x ++ calls y.
Proof. apply flat_map_app. Qed.

Lemma backoffs_app (x y : list Event) :
  backoffs (x ++ y) = backoffs x ++ backoffs y.
Proof. apply flat_map_app. Qed.

Lemma delays_app (x y : list Event) : delays (x ++ y) = delays x ++ delays y.
Proof. apply flat_map_app. Qed.

(** The request spacing of one attempt followed by its call. *)
Lemma spaced_call (since : Z) (a : nat) :
  let waited :=
    if (since <? REQUEST_DELAY_MS)%Z then [Delay (REQUEST_DELAY_MS - since)]
    else [] in
  calls (waited ++ [Call a]) = [a]
  /\ backoffs (waited ++ [Call a]) = []
  /\ Forall (fun ms => (0 < ms)%Z) (delays (waited ++ [Call a])).
Proof.
  cbv zeta. destruct (Z.ltb_spec since REQUEST_DELAY_MS); simpl.
  - repeat split; try reflexivity. constructor; [lia|constructor].
  - repeat split; try reflexivity. constructor.
Qed.

Lemma attempts_spec (fuel : nat) :
  forall (a : nat) (w : World),
    (0 < fuel)%nat ->
    (Z.of_nat a + Z.of_nat fuel = retries + 1)%Z ->
    exists k added,
      (a <= k < a + fuel)%nat
      /\ fst (attempts now fn retries fuel a w) = settle (fn k)
      /\ trace (snd (attempts now fn retries fuel a w)) = trace w ++ added
      /\ calls added = seq a (S k - a)
      /\ backoffs added
         = map (fun i => (2 ^ Z.of_nat i * 1000)%Z) (seq a (k - a))
      /\ Forall (fun ms => (0 < ms)%Z) (delays added)
      /\ (forall i, (a <= i < k)%nat -> retriable (fn i))
      /\ ((Z.of_nat k < retries)%Z -> ~ retriable (fn k)).
Proof.
  induction fuel as [|fuel IH]; intros a w Hfuel Hsum; [lia|].
  cbn [attempts]. cbv zeta.
  set (since := (now (tick w) - lastCallTime w)%Z).
  destruct (spaced_call since a) as (Hcalls & Hbacks & Hdelays).
  cbv zeta in Hcalls, Hbacks, Hdelays.
  set (waited := if (since <? REQUEST_DELAY_MS)%Z
                 then [Delay (REQUEST_DELAY_MS - since)] else []) in *.
  assert (Hhere : forall r : Settled T,
             r = settle (fn a) ->
             ((Z.of_nat a < retries)%Z -> ~ retriable (fn a)) ->
             exists k added,
               (a <= k < a + S fuel)%nat
               /\ r = settle (fn k)
               /\ trace w ++ waited ++ [Call a] = trace w ++ added
               /\ calls added = seq a (S k - a)
               /\ backoffs added
                  = map (fun i => (2 ^ Z.of_nat i * 1000)%Z) (seq a (k - a))
               /\ Forall (fun ms => (0 < ms)%Z) (delays added)
               /\ (forall i, (a <= i < k)%nat -> retriable (fn i))
               /\ ((Z.of_nat k < retries)%Z -> ~ retriable (fn k))).
  { intros r Hr Hdec. exists a, (waited ++ [Call a]).
    split; [lia|]. split; [exact Hr|]. split; [reflexivity|].
    replace (S a - a)%nat with 1%nat by lia.
    replace (a - a)%nat with 0%nat by lia.
    split; [exact Hcalls|]. split; [exact Hbacks|]. split; [exact Hdelays|].
    split; [intros i Hi; lia|exact Hdec]. }
  destruct (fn a) as [v|s] eqn:Hfn.
  { apply Hhere; [reflexivity|].
    intros _ (s & Hs & _). discriminate. }
  destruct (status_is s 429) eqn:H429.
  { apply Hhere; [reflexivity|].
    intros _ (s' & Hs & H1 & _). congruence. }
  destruct (status_is s 401) eqn:H401.
  { apply Hhere; [reflexivity|].
    intros _ (s' & Hs & _ & H1 & _). congruence. }
  destruct (status_is s 403) eqn:H403.
  { apply Hhere; [reflexivity|].
    intros _ (s' & Hs & _ & _ & H1). congruence. }
  cbn [orb].
  destruct (Z.eqb_spec (Z.of_nat a) retries) as [Hlast|Hmore].
  { apply Hhere; [reflexivity|]. lia. }
  match goal with
  | |- context [attempts now fn retries fuel (S a) ?w1] =>
      destruct (IH (S a) w1) as (k & added & Hk & Hres & Htr & Hc & Hb & Hd
                                  & Hretry & Hdec); [lia|lia|]
  end.
  exists k, (waited ++ [Call a]
             ++ [Backoff (2 ^ Z.of_nat a * 1000)] ++ added).
  split; [lia|]. split; [exact Hres|].
  split.
  { rewrite Htr. cbn [trace]. by rewrite <- !app_assoc. }
  split.
  { rewrite app_assoc, calls_app, Hcalls, calls_app, Hc. cbn [calls flat_map app].
    replace (S k - a)%nat with (S (S k - S a)) by lia. reflexivity. }
  split.
  { rewrite app_assoc, backoffs_app, Hbacks, backoffs_app, Hb.
    cbn [backoffs flat_map app].
    replace (k - a)%nat with (S (k - S a)) by lia. reflexivity. }
  split.
  { rewrite app_assoc, delays_app.
    apply Forall_app. split; [exact Hdelays|]. rewrite delays_app. exact Hd. }
  split; [|exact Hdec].
  intros i Hi. destruct (Nat.eq_dec i a) as [->|Hne].
  - exists s. by rewrite Hfn.
  - apply Hretry. lia.
Qed.

Lemma backoff_total (k : nat) :
  fold_right Z.add 0%Z (map (fun i => (2 ^ Z.of_nat i * 1000)%Z) (seq 0 k))
  = ((2 ^ Z.of_nat k - 1) * 1000)%Z.
Proof.
  induction k as [|k IH]; [reflexivity|].
  rewrite seq_S, map_app, fold_right_app. cbn [map fold_right Nat.add].
  assert (Hshift : forall (l : list Z) (x : Z),
             fold_right Z.add x l = (fold_right Z.add 0 l + x)%Z).
  { induction l as [|y l IHl]; intros x; cbn [fold_right]; [lia|].
    rewrite IHl. lia. }
  rewrite Hshift, IH.
  rewrite Nat2Z.inj_succ, Z.pow_succ_r by lia. lia.
Qed.

(** X24: [withRetry] with an integer [retries].  With a negative [retries]
    the function [fn] is never called and the promise rejects with
    'Max retries exceeded'.  With [retries >= 0] that error never comes out:
    the promise settles as [fn] did in some attempt [k <= retries], after
    exactly the calls of attempts 0 to [k], with back-off waits of 1000,
    2000, ..., [2^(k-1) * 1000] ms between them ([(2^k - 1) * 1000] ms in
    all, none after the last call); every attempt before [k] was rejected
    with a status other than 429, 401 and 403, and attempt [k] was not, unless
    it was the last one allowed; each request-spacing wait is positive. *)
Theorem X24_withRetry_settles_on_first_decisive_attempt (w : World) :
  ((retries < 0)%Z ->
   withRetry now fn retries w = (Rejected MaxRetriesExceeded, w))
  /\ ((0 <= retries)%Z ->
      exists k added,
        (Z.of_nat k <= retries)%Z
        /\ fst (withRetry now fn retries w) = settle (fn k)
        /\ trace (snd (withRetry now fn retries w)) = trace w ++ added
        /\ calls added = seq 0 (S k)
        /\ backoffs added
           = map (fun i => (2 ^ Z.of_nat i * 1000)%Z) (seq 0 k)
        /\ fold_right Z.add 0%Z (backoffs added)
           = ((2 ^ Z.of_nat k - 1) * 1000)%Z
        /\ Forall (fun ms => (0 < ms)%Z) (delays added)
        /\ (forall i, (i < k)%nat -> retriable (fn i))
        /\ ((Z.of_nat k < retries)%Z -> ~ retriable (fn k))).
Proof.
  unfold withRetry. split.
  - intros Hneg. replace (Z.to_nat (retries + 1)) with 0%nat by lia.
    reflexivity.
  - intros Hpos.
    destruct (attempts_spec (Z.to_nat (retries + 1)) 0 w)
      as (k & added & Hk & Hres & Htr & Hc & Hb & Hd & Hretry & Hdec);
      [lia|lia|].
    exists k, added.
    rewrite Nat.sub_0_r in Hc, Hb.
    split; [lia|]. split; [exact Hres|]. split; [exact Htr|].
    split; [exact Hc|]. split; [exact Hb|].
    split; [rewrite Hb; apply backoff_total|].
    split; [exact Hd|].
    split; [intros i Hi; apply Hretry; lia|exact Hdec].
Qed.

End Retry.

Lemma X24_withRetry_settles_on_first_decisive_attempt_witness :
  exists k added,
    (Z.of_nat k <= 2)%Z
    /\ fst (BinanceClient.withRetry RetryScenario.clock RetryScenario.flaky 2
                                    RetryScenario.idle)
       = settle (RetryScenario.flaky k)
    /\ BinanceClient.trace
         (snd (BinanceClient.withRetry RetryScenario.clock RetryScenario.flaky 2
                                       RetryScenario.idle))
       = BinanceClient.trace RetryScenario.idle ++ added
    /\ calls added = seq 0 (S k)
    /\ backoffs added = map (fun i => (2 ^ Z.of_nat i * 1000)%Z) (seq 0 k)
    /\ fold_right Z.add 0%Z (backoffs added) = ((2 ^ Z.of_nat k - 1) * 1000)%Z
    /\ Forall (fun ms => (0 < ms)%Z) (delays added)
    /\ (forall i, (i < k)%nat -> retriable (RetryScenario.flaky i))
    /\ ((Z.of_nat k < 2)%Z -> ~ retriable (RetryScenario.flaky k)).
Proof.
  refine (proj2 (X24_withRetry_settles_on_first_decisive_attempt
                   RetryScenario.clock RetryScenario.flaky 2 RetryScenario.idle) _).
  lia.
Defined.

(* ------------------------------------------------------------------ *)
(** ** BinanceClient: symbol names *)

Section Symbols.

Import BinanceClient.

Lemma upper_idempotent (c : Ascii.ascii) : upper (upper c) = upper c.
Proof.
  destruct c as [[] [] [] [] [] [] [] []]; reflexivity.
Qed.

Lemma upper_slash (c : Ascii.ascii) :
  Ascii.eqb (upper c) "/"%char = Ascii.eqb c "/"%char.
Proof.
  destruct c as [[] [] [] [] [] [] [] []]; reflexivity.
Qed.

Lemma toUpperCase_idempotent (s : string) :
  toUpperCase (toUpperCase s) = toUpperCase s.
Proof.
  induction s as [|c s IH]; [reflexivity|].
  simpl. by rewrite upper_idempotent, IH.
Qed.

Lemma toUpperCase_app (s r : string) :
  toUpperCase (String.append s r)
  = String.append (toUpperCase s) (toUpperCase r).
Proof.
  induction s as [|c s IH]; [reflexivity|]. simpl. by rewrite IH.
Qed.

Lemma no_slash_toUpperCase (s : string) :
  no_slash (toUpperCase s) = no_slash s.
Proof.
  induction s as [|c s IH]; [reflexivity|].
  simpl. by rewrite upper_slash, IH.
Qed.

Lemma no_slash_app (s r : string) :
  no_slash (String.append s r) = no_slash s && no_slash r.
Proof.
  induction s as [|c s IH]; [reflexivity|].
  simpl. rewrite IH. by rewrite andb_assoc.
Qed.

Lemma replace_slash_first (s r : string) :
  no_slash s = true ->
  replace_slash (String.append s (String "/"%char r)) = String.append s r.
Proof.
  induction s as [|c s IH]; [reflexivity|].
  simpl. intros H. apply andb_true_iff in H as [Hc Hs].
  destruct (Ascii.eqb c "/"%char); [discriminate|].
  by rewrite IH.
Qed.

(** The four entries of [mappings] are instances of the general rule. *)
Lemma mapSymbol_rule (pair : string) :
  mapSymbol pair = replace_slash (toUpperCase pair).
Proof.
  unfold mapSymbol. cbv zeta. unfold mappings. cbn [get_mapping].
  repeat match goal with
         | |- context [String.eqb ?a ?b] =>
             destruct (String.eqb_spec a b) as [->|_]; [reflexivity|]
         end.
  reflexivity.
Qed.

(** X25: [mapSymbol] on a pair [base/quote] of ASCII characters whose base
    has no slash: the result is the upper-cased base followed by the
    upper-cased quote; it is what the general rule (upper-case, then drop
    the first slash) gives, so the table of four known pairs changes
    nothing; it does not depend on the case of the letters; and it has no
    slash left when the quote has none. *)
Theorem X25_mapSymbol_drops_the_slash (base quote : string) :
  ascii_only base -> ascii_only quote ->
  no_slash base = true ->
  let pair := String.append base (String "/"%char quote) in
  mapSymbol pair = String.append (toUpperCase base) (toUpperCase quote)
  /\ mapSymbol pair = replace_slash (toUpperCase pair)
  /\ mapSymbol (toUpperCase pair) = mapSymbol pair
  /\ (no_slash quote = true -> no_slash (mapSymbol pair) = true).
Proof.
  intros _ _ Hbase pair.
  assert (Hmap : mapSymbol pair
                 = String.append (toUpperCase base) (toUpperCase quote)).
  { rewrite mapSymbol_rule. subst pair. rewrite toUpperCase_app.
    cbn [toUpperCase]. change (upper "/"%char) with "/"%char.
    apply replace_slash_first. by rewrite no_slash_toUpperCase. }
  split; [exact Hmap|]. split; [apply mapSymbol_rule|]. split.
  - by rewrite !mapSymbol_rule, toUpperCase_idempotent.
  - intros Hquote. rewrite Hmap, no_slash_app, !no_slash_toUpperCase.
    by rewrite Hbase, Hquote.
Qed.

Lemma X25_mapSymbol_drops_the_slash_witness :
  mapSymbol "sol/usdt" = "SOLUSDT".
Proof.
  refine (proj1 (X25_mapSymbol_drops_the_slash "sol" "usdt" _ _ _)).
  - repeat constructor.
  - repeat constructor.
  - reflexivity.
Defined.

End Symbols.
